(** * Check-in engine of the venue check-in manager

    A shallow embedding of the Express route handlers that create and
    reverse check-ins (routes/checkins), delete events (routes/events) and
    delete athletes (routes/athletes), together with the store they talk to.

    Every handler is an [async] function: it runs synchronously up to the
    next [await db.…], hands one statement to the store, and resumes with the
    outcome.  A handler is therefore embedded as a tree of store statements
    ([Prog]); running the tree to its end is a call that is not interleaved
    with any other, and stepping several trees in turn is what the Node event
    loop does with overlapping requests.

    A handler is taken from the point where the authentication middleware
    ([verifyToken], [verifyAdmin]) has let the request through. *)

From Stdlib Require Import ZArith String Ascii List Lia.
From stdpp Require Import gmap strings list fin_maps.

Import ListNotations.
Local Open Scope string_scope.
Local Open Scope Z_scope.

(** ** Rows *)

Record Athlete := mkAthlete {
  a_id : string;
  firstName : string;
  lastName : string;
  email : option string;
  hasValidWaiver : bool;
  waiverExpirationDate : option string;
  lastVisited : option string;
  a_updatedAt : string
}.

Record Event := mkEvent {
  e_id : string;
  name : string;
  date : string;
  maxCapacity : Z;
  currentCapacity : Z;
  isActive : bool;
  e_updatedAt : string
}.

Record CheckIn := mkCheckIn {
  c_id : string;
  athleteId : string;
  eventId : string;
  checkInTime : string;
  waiverValidated : bool;
  notes : option string;
  createdAt : string
}.

(** The row of [SELECT c.*, a.firstName, a.lastName, a.email, e.name as
    eventName FROM checkins c JOIN athletes a … JOIN events e …]. *)
Record CheckInView := mkView {
  v_row : CheckIn;
  v_firstName : string;
  v_lastName : string;
  v_email : option string;
  v_eventName : string
}.

(** ** JavaScript values the handlers look at *)

(** [!x] on a value that is a string, [null] or [undefined]. *)
Definition truthy (x : option string) : bool :=
  match x with
  | Some s => negb (String.eqb s "")
  | None => false
  end.

(** [a < b] on two strings: code units compared left to right. *)
Definition str_lt (a b : string) : bool := String.ltb a b.

(** [s.split('T')[0]]. *)
Fixpoint before_T (s : string) : string :=
  match s with
  | EmptyString => EmptyString
  | String c r => if Ascii.eqb c "T"%char then EmptyString else String c (before_T r)
  end.

(** [d > now] on a [Date] built from a string and the clock: the time value
    of an unparsable string is NaN, and every comparison with NaN is false. *)
Definition date_gt (d : option Z) (now : Z) : bool :=
  match d with
  | Some t => now <? t
  | None => false
  end.

(** ** Responses *)

Inductive Body :=
| Error (msg : string)
| Message (msg : string)
| CheckinCreated (checkin : option CheckInView) (validated : bool) (msg : string)
| CheckinUpdated (checkin : option CheckInView) (msg : string)
| EventUpdated (event : option Event) (msg : string).

Record Response := json { status : Z; body : Body }.

Definition succeeded (r : Response) : bool := status r <? 400.

(** The failure kinds of the design document, read on the status line and
    message of a response. *)
Inductive ErrorKind := NotFound | Conflict | Validation | Internal.

Definition error_kind (r : Response) : option ErrorKind :=
  if status r =? 404 then Some NotFound
  else if status r =? 500 then Some Internal
  else if status r =? 400 then
    match body r with
    | Error msg =>
        if String.eqb msg "Athlete ID and Event ID are required"
        then Some Validation else Some Conflict
    | _ => Some Conflict
    end
  else None.

(** ** The store *)

Record Tables := mkTables {
  athletes : gmap string Athlete;
  events : gmap string Event;
  checkins : list CheckIn
}.

(** Modelled from the spec: the store module ([../database]) is not part of
    the sources; the design document asks of it a relational store with
    multi-statement transactions.  It is taken to be what the statements of
    the handlers are written for: one shared connection whose [BEGIN
    TRANSACTION] remembers the tables, whose [ROLLBACK] puts them back and
    whose [COMMIT] forgets them, with the [id] column of [checkins] as the
    only constraint (no foreign-key action, trigger or CHECK clause). *)
Record DB := mkDB {
  cur : Tables;
  txn : option Tables
}.

Definition idle (t : Tables) : DB := mkDB t None.

Definition bump (by_ : Z) (updatedAt : string) (e : Event) : Event :=
  mkEvent (e_id e) (name e) (date e) (maxCapacity e)
          (currentCapacity e + by_) (isActive e) updatedAt.

Definition visit (day updatedAt : string) (a : Athlete) : Athlete :=
  mkAthlete (a_id a) (firstName a) (lastName a) (email a) (hasValidWaiver a)
            (waiverExpirationDate a) (Some day) updatedAt.

Definition annotate (n : option string) (c : CheckIn) : CheckIn :=
  mkCheckIn (c_id c) (athleteId c) (eventId c) (checkInTime c)
            (waiverValidated c) n (createdAt c).

Definition activate (b : bool) (updatedAt : string) (e : Event) : Event :=
  mkEvent (e_id e) (name e) (date e) (maxCapacity e)
          (currentCapacity e) b updatedAt.

Definition has_id (id : string) (c : CheckIn) : bool := String.eqb (c_id c) id.
Definition for_event (ev : string) (c : CheckIn) : bool := String.eqb (eventId c) ev.
Definition for_pair (a ev : string) (c : CheckIn) : bool :=
  String.eqb (athleteId c) a && String.eqb (eventId c) ev.

Definition join_row (t : Tables) (c : CheckIn) : option CheckInView :=
  match athletes t !! athleteId c, events t !! eventId c with
  | Some a, Some e => Some (mkView c (firstName a) (lastName a) (email a) (name e))
  | _, _ => None
  end.

(** The statements the handlers send, indexed by what they resolve to. *)
Inductive Query : Type -> Type :=
| SelectAthlete (id : string) : Query (option Athlete)
| SelectEvent (id : string) : Query (option Event)
| SelectActiveEvent (id : string) : Query (option Event)
| SelectCheckin (id : string) : Query (option CheckIn)
| SelectCheckinOf (athlete event : string) : Query (option string)
| SelectCheckinJoined (id : string) : Query (option CheckInView)
| CountCheckins (event : string) : Query Z
| Begin : Query unit
| Commit : Query unit
| Rollback : Query unit
| InsertCheckin (c : CheckIn) : Query unit
| AddCapacity (by_ : Z) (updatedAt event : string) : Query unit
| SetLastVisited (day updatedAt athlete : string) : Query unit
| SetNotes (n : option string) (id : string) : Query unit
| SetActive (b : bool) (updatedAt event : string) : Query unit
| DeleteCheckin (id : string) : Query unit
| DeleteEvent (id : string) : Query unit
| DeleteAthlete (id : string) : Query unit.

Definition write (db : DB) (t : Tables) : DB := mkDB t (txn db).

(** Modelled from the spec: the store's answer to one statement of the
    handlers (the module that runs them is not part of the sources): what the
    promise resolves to, [None] when it rejects, and the store afterwards.
    A statement that is refused changes nothing. *)
Definition exec {A} (q : Query A) (db : DB) : option A * DB :=
  let t := cur db in
  match q in Query T return option T * DB with
  | SelectAthlete id => (Some (athletes t !! id), db)
  | SelectEvent id => (Some (events t !! id), db)
  | SelectActiveEvent id =>
      (Some (match events t !! id with
             | Some e => if isActive e then Some e else None
             | None => None
             end), db)
  | SelectCheckin id => (Some (List.find (has_id id) (checkins t)), db)
  | SelectCheckinOf a ev =>
      (Some (option_map c_id (List.find (for_pair a ev) (checkins t))), db)
  | SelectCheckinJoined id =>
      (Some (head (omap (join_row t) (List.filter (has_id id) (checkins t)))), db)
  | CountCheckins ev =>
      (Some (Z.of_nat (length (List.filter (for_event ev) (checkins t)))), db)
  | Begin =>
      match txn db with
      | Some _ => (None, db)
      | None => (Some tt, mkDB t (Some t))
      end
  | Commit =>
      match txn db with
      | Some _ => (Some tt, mkDB t None)
      | None => (None, db)
      end
  | Rollback =>
      match txn db with
      | Some saved => (Some tt, mkDB saved None)
      | None => (None, db)
      end
  | InsertCheckin c =>
      if existsb (has_id (c_id c)) (checkins t) then (None, db)
      else (Some tt, write db (mkTables (athletes t) (events t) (checkins t ++ [c])))
  | AddCapacity by_ at_ ev =>
      (Some tt, write db (mkTables (athletes t) (alter (bump by_ at_) ev (events t)) (checkins t)))
  | SetLastVisited day at_ a =>
      (Some tt, write db (mkTables (alter (visit day at_) a (athletes t)) (events t) (checkins t)))
  | SetNotes n id =>
      (Some tt, write db (mkTables (athletes t) (events t)
                            (map (fun c => if has_id id c then annotate n c else c) (checkins t))))
  | SetActive b at_ ev =>
      (Some tt, write db (mkTables (athletes t) (alter (activate b at_) ev (events t)) (checkins t)))
  | DeleteCheckin id =>
      (Some tt, write db (mkTables (athletes t) (events t)
                            (List.filter (fun c => negb (has_id id c)) (checkins t))))
  | DeleteEvent id =>
      (Some tt, write db (mkTables (athletes t) (delete id (events t)) (checkins t)))
  | DeleteAthlete id =>
      (Some tt, write db (mkTables (delete id (athletes t)) (events t) (checkins t)))
  end.

(** ** Handlers as trees of statements *)

Inductive Prog : Type :=
| Send (r : Response)
| Await {A : Type} (q : Query A) (k : option A -> Prog).

(** [await q] inside a [try] whose [catch] continues as [handler]. *)
Definition await {A} (q : Query A) (handler : Prog) (k : A -> Prog) : Prog :=
  Await q (fun r => match r with Some a => k a | None => handler end).

Notation "'let!' x ':=' q 'catch' h 'in' k" :=
  (await q h (fun x => k))
  (at level 10, x binder, q at level 100, h at level 100, k at level 200,
   format "'[v' 'let!'  x  ':='  q  'catch'  h  'in' '/' k ']'").

Definition reply (code : Z) (msg : string) : Prog := Send (json code (Error msg)).

(** A call that runs from its first statement to its response with nothing
    in between. *)
Fixpoint run (p : Prog) (db : DB) : Response * DB :=
  match p with
  | Send r => (r, db)
  | Await q k => let '(a, db') := exec q db in run (k a) db'
  end.

(** One turn of the event loop for one request: the pending statement is
    executed and the handler runs on to its next [await]. *)
Definition step (p : Prog) (db : DB) : Prog * DB :=
  match p with
  | Send r => (p, db)
  | Await q k => let '(a, db') := exec q db in (k a, db')
  end.

(** Requests in flight, resumed in the order the schedule names them. *)
Fixpoint interleave (schedule : list nat) (pool : list Prog) (db : DB)
  : list Prog * DB :=
  match schedule with
  | [] => (pool, db)
  | i :: rest =>
      match pool !! i with
      | Some p => let '(p', db') := step p db in interleave rest (<[i:=p']> pool) db'
      | None => interleave rest pool db
      end
  end.

Definition response_of (p : Prog) : option Response :=
  match p with
  | Send r => Some r
  | Await _ _ => None
  end.

(** ** POST /checkins *)

Record CheckInBody := mkBody {
  b_athleteId : option string;
  b_eventId : option string;
  b_notes : option string
}.

(** What one call reads from outside the store: the three clock readings
    ([new Date()] for the past-event test, for the waiver test and for
    [checkInTime]) and the identifier drawn by [uuidv4()]. *)
Record Ambient := mkAmbient {
  clock_today : string;
  clock_now : Z;
  uuid : string;
  clock_checkin : string
}.

Section Host.

(** The time value of [new Date(s)], [None] for an invalid date. *)
Variable Date_parse : string -> option Z.

(** Lines 139-148 of the handler. *)
Definition waiver_check (athlete : Athlete) (now : Z) : bool :=
  if hasValidWaiver athlete then
    match waiverExpirationDate athlete with
    | Some s => if truthy (Some s) then date_gt (Date_parse s) now else true
    | None => true
    end
  else false.

Definition createCheckIn (w : Ambient) (b : CheckInBody) : Prog :=
  let failed := reply 500 "Failed to create check-in" in
  match b_athleteId b, b_eventId b with
  | Some aid, Some eid =>
    if negb (truthy (Some aid)) || negb (truthy (Some eid))
    then reply 400 "Athlete ID and Event ID are required" else
    let! athlete := SelectAthlete aid catch failed in
    match athlete with
    | None => reply 404 "Athlete not found"
    | Some athlete =>
    let! event := SelectActiveEvent eid catch failed in
    match event with
    | None => reply 404 "Event not found or inactive"
    | Some event =>
    let today := before_T (clock_today w) in
    if str_lt (date event) today
    then reply 400 "Cannot check into past events" else
    let! existingCheckin := SelectCheckinOf aid eid catch failed in
    match existingCheckin with
    | Some _ => reply 400 "Athlete already checked in for this event"
    | None =>
    if currentCapacity event >=? maxCapacity event
    then reply 400 "Event is at full capacity" else
    let validated := waiver_check athlete (clock_now w) in
    let checkinId := uuid w in
    let checkInTime := clock_checkin w in
    let! _ := Begin catch failed in
    let undo := Await Rollback (fun _ => failed) in
    let! _ := InsertCheckin
                (mkCheckIn checkinId aid eid checkInTime validated (b_notes b) checkInTime)
              catch undo in
    let! _ := AddCapacity 1 checkInTime eid catch undo in
    let! _ := SetLastVisited (before_T checkInTime) checkInTime aid catch undo in
    let! _ := Commit catch undo in
    let! newCheckin := SelectCheckinJoined checkinId catch undo in
    Send (json 201 (CheckinCreated newCheckin validated
                      (if validated
                       then "Check-in successful - waiver validated"
                       else "Check-in successful - WAIVER VALIDATION REQUIRED")))
    end end end
  | _, _ => reply 400 "Athlete ID and Event ID are required"
  end.

End Host.

(** ** PATCH /checkins/:id/notes *)

Definition updateNotes (id : string) (n : option string) : Prog :=
  let failed := reply 500 "Failed to update check-in notes" in
  let! existingCheckin := SelectCheckin id catch failed in
  match existingCheckin with
  | None => reply 404 "Check-in not found"
  | Some _ =>
    let! _ := SetNotes n id catch failed in
    let! updatedCheckin := SelectCheckinJoined id catch failed in
    Send (json 200 (CheckinUpdated updatedCheckin "Notes updated successfully"))
  end.

(** ** DELETE /checkins/:id *)

Definition reverseCheckIn (clock : string) (id : string) : Prog :=
  let failed := reply 500 "Failed to delete check-in" in
  let! checkin := SelectCheckin id catch failed in
  match checkin with
  | None => reply 404 "Check-in not found"
  | Some checkin =>
    let! _ := Begin catch failed in
    let undo := Await Rollback (fun _ => failed) in
    let! _ := DeleteCheckin id catch undo in
    let! _ := AddCapacity (-1) clock (eventId checkin) catch undo in
    let! _ := Commit catch undo in
    Send (json 200 (Message "Check-in deleted successfully"))
  end.

(** ** DELETE /events/:id *)

Definition deleteEvent (id : string) : Prog :=
  let failed := reply 500 "Failed to delete event" in
  let! existingEvent := SelectEvent id catch failed in
  match existingEvent with
  | None => reply 404 "Event not found"
  | Some _ =>
    let! count := CountCheckins id catch failed in
    if count >? 0
    then reply 400 "Cannot delete event with existing check-ins. Deactivate it instead."
    else
      let! _ := DeleteEvent id catch failed in
      Send (json 200 (Message "Event deleted successfully"))
  end.

(** ** PATCH /events/:id/toggle *)

Definition toggleEvent (clock : string) (id : string) : Prog :=
  let failed := reply 500 "Failed to toggle event status" in
  let! existingEvent := SelectEvent id catch failed in
  match existingEvent with
  | None => reply 404 "Event not found"
  | Some existingEvent =>
    let newStatus := negb (isActive existingEvent) in
    let! _ := SetActive newStatus clock id catch failed in
    let! updatedEvent := SelectEvent id catch failed in
    Send (json 200 (EventUpdated updatedEvent
                      (if newStatus then "Event activated successfully"
                       else "Event deactivated successfully")))
  end.

(** ** DELETE /athletes/:id *)

Definition deleteAthlete (id : string) : Prog :=
  let failed := reply 500 "Failed to delete athlete" in
  let! existingAthlete := SelectAthlete id catch failed in
  match existingAthlete with
  | None => reply 404 "Athlete not found"
  | Some _ =>
    let! _ := DeleteAthlete id catch failed in
    Send (json 200 (Message "Athlete deleted successfully"))
  end.

(** ** The event listings (GET /events/today, /disabled, /past) *)

(** [WHERE date = ? AND isActive = 1]: the events offered for check-in. *)
Definition listed_today (today : string) (e : Event) : bool :=
  String.eqb (date e) today && isActive e.

(** [WHERE date >= ? AND isActive = 0]. *)
Definition listed_disabled (today : string) (e : Event) : bool :=
  String.leb today (date e) && negb (isActive e).

(** [WHERE date < ?]. *)
Definition listed_past (today : string) (e : Event) : bool :=
  String.ltb (date e) today.

(** ** Calls one after the other *)

Fixpoint run_all (ps : list Prog) (db : DB) : list Response * DB :=
  match ps with
  | [] => ([], db)
  | p :: rest =>
      let '(r, db1) := run p db in
      let '(rs, db2) := run_all rest db1 in
      (r :: rs, db2)
  end.

(** The statements of a call in the order they reach the store, each with
    the transaction state it found. *)
Record Entry := mkEntry {
  feeds_check : bool;   (* a read one of the four precondition tests looks at *)
  writes : bool;        (* INSERT, UPDATE or DELETE *)
  in_transaction : bool
}.

Definition is_check_read {A} (q : Query A) : bool :=
  match q with
  | SelectAthlete _ | SelectActiveEvent _ | SelectCheckinOf _ _ => true
  | _ => false
  end.

Definition is_write {A} (q : Query A) : bool :=
  match q with
  | InsertCheckin _ | AddCapacity _ _ _ | SetLastVisited _ _ _ | SetNotes _ _
  | SetActive _ _ _ | DeleteCheckin _ | DeleteEvent _ | DeleteAthlete _ => true
  | _ => false
  end.

Definition open (db : DB) : bool :=
  match txn db with Some _ => true | None => false end.

Fixpoint trace (p : Prog) (db : DB) : list Entry :=
  match p with
  | Send _ => []
  | Await q k =>
      let '(a, db') := exec q db in
      mkEntry (is_check_read q) (is_write q) (open db) :: trace (k a) db'
  end.

(** The reading of "checks and writes inside the same transaction": every
    read that feeds a test and every write finds the transaction open. *)
Definition within_one_transaction (tr : list Entry) : Prop :=
  Forall (fun en => feeds_check en = true \/ writes en = true ->
                    in_transaction en = true) tr.

(** ** The operations of the engine as one type *)

Inductive Op :=
| CreateCheckIn (w : Ambient) (b : CheckInBody)
| ReverseCheckIn (clock id : string)
| UpdateNotes (id : string) (n : option string)
| RemoveEvent (id : string)
| ToggleEvent (clock id : string)
| RemoveAthlete (id : string).

Definition handler (Date_parse : string -> option Z) (o : Op) : Prog :=
  match o with
  | CreateCheckIn w b => createCheckIn Date_parse w b
  | ReverseCheckIn clock id => reverseCheckIn clock id
  | UpdateNotes id n => updateNotes id n
  | RemoveEvent id => deleteEvent id
  | ToggleEvent clock id => toggleEvent clock id
  | RemoveAthlete id => deleteAthlete id
  end.

(** ** What the claims speak of *)

(** The row a successful POST inserts. *)
Definition new_row (validated : bool) (w : Ambient) (aid eid : string)
    (n : option string) : CheckIn :=
  mkCheckIn (uuid w) aid eid (clock_checkin w) validated n (clock_checkin w).

(** The three writes of a successful POST, all applied. *)
Definition checked_in (validated : bool) (w : Ambient) (aid eid : string)
    (n : option string) (t : Tables) : Tables :=
  mkTables (alter (visit (before_T (clock_checkin w)) (clock_checkin w)) aid (athletes t))
           (alter (bump 1 (clock_checkin w)) eid (events t))
           (checkins t ++ [new_row validated w aid eid n]).

(** The two writes of a successful DELETE /checkins/:id, both applied. *)
Definition reversed (clock id : string) (c : CheckIn) (t : Tables) : Tables :=
  mkTables (athletes t)
           (alter (bump (-1) clock) (eventId c) (events t))
           (List.filter (fun x => negb (has_id id x)) (checkins t)).

Definition count_for (ev : string) (t : Tables) : Z :=
  Z.of_nat (length (List.filter (for_event ev) (checkins t))).

Definition unique_pairs (t : Tables) : Prop :=
  forall a ev, (length (List.filter (for_pair a ev) (checkins t)) <= 1)%nat.

Definition capacity_consistent (t : Tables) : Prop :=
  forall id e, events t !! id = Some e -> currentCapacity e = count_for id t.

Definition no_orphans (t : Tables) : Prop :=
  forall c, In c (checkins t) -> is_Some (events t !! eventId c).

Definition Call : Type := Ambient * CheckInBody.

Definition requests (Date_parse : string -> option Z) (calls : list Call) : list Prog :=
  map (fun c : Call => createCheckIn Date_parse c.1 c.2) calls.

(** How many of the calls aimed at event [ev] were answered with success. *)
Definition accepted (ev : string) (calls : list Call) (rs : list Response) : nat :=
  length (List.filter
            (fun cr : Call * Response =>
               bool_decide (b_eventId cr.1.2 = Some ev) && succeeded cr.2)
            (combine calls rs)).

(** The request names an athlete and an event, and both are on file. *)
Definition reaches_event (b : CheckInBody) (t : Tables) (aid eid : string)
    (a : Athlete) (e : Event) : Prop :=
  b_athleteId b = Some aid /\ b_eventId b = Some eid /\
  truthy (Some aid) = true /\ truthy (Some eid) = true /\
  athletes t !! aid = Some a /\ events t !! eid = Some e.

(** ** A small venue to evaluate the handlers on *)

Definition sample_parse (s : string) : option Z :=
  if String.eqb s "2025-06-01T00:00:00.000Z" then Some 1748736000000 else None.

Definition ann : Athlete :=
  mkAthlete "a1" "Ann" "Lee" None true (Some "2025-06-01T00:00:00.000Z") None "2025-03-01T08:00:00.000Z".

Definition bob : Athlete :=
  mkAthlete "a2" "Bob" "Ray" (Some "bob@example.org") false None None "2025-03-01T08:00:00.000Z".

(** One place, today, open. *)
Definition open_gym : Event :=
  mkEvent "e1" "Open gym" "2025-03-02" 1 0 true "2025-03-01T09:00:00.000Z".

(** Tomorrow, open. *)
Definition clinic : Event :=
  mkEvent "e2" "Serving clinic" "2025-03-03" 12 0 true "2025-03-01T09:00:00.000Z".

(** Today, switched off. *)
Definition scrimmage : Event :=
  mkEvent "e3" "Scrimmage" "2025-03-02" 12 0 false "2025-03-01T09:00:00.000Z".

Definition venue : Tables :=
  mkTables (<["a1" := ann]> (<["a2" := bob]> ∅))
           (<["e1" := open_gym]> (<["e2" := clinic]> (<["e3" := scrimmage]> ∅)))
           [].

Definition at_desk (id : string) : Ambient :=
  mkAmbient "2025-03-02T10:00:00.000Z" 1740909600000 id "2025-03-02T10:00:01.000Z".


Definition ask (athlete event : string) : CheckInBody :=
  mkBody (Some athlete) (Some event) None.

(** The venue after Ann took the one place of the open gym. *)
Definition venue_full : Tables :=
  checked_in true (at_desk "c1") "a1" "e1" None venue.

(** Tables in which the open gym counts no check-in although one is on file. *)
Definition venue_skewed : Tables :=
  mkTables (athletes venue) (events venue)
           [new_row true (at_desk "c1") "a1" "e1" None].

(** Ann and Bob both ask for the one place of the open gym. *)
Definition ann_asks : Prog := createCheckIn sample_parse (at_desk "c1") (ask "a1" "e1").
Definition bob_asks : Prog := createCheckIn sample_parse (at_desk "c2") (ask "a2" "e1").

Definition two_calls : list Call :=
  [(at_desk "c1", ask "a1" "e1"); (at_desk "c2", ask "a2" "e1")].

(** Ann's request is resumed 9 times, then Bob's 9 times. *)
Definition one_after_the_other : list nat :=
  [0; 0; 0; 0; 0; 0; 0; 0; 0; 1; 1; 1; 1; 1; 1; 1; 1; 1]%nat.

(** Both requests have read athlete and event before either goes on. *)
Definition overlapping : list nat :=
  [0; 0; 1; 1; 0; 0; 0; 0; 0; 0; 0; 1; 1; 1; 1; 1; 1; 1]%nat.

(** Two requests to delete the same check-in, both past their lookup before
    either opens its transaction. *)
Definition twice_reversed : list nat :=
  [0; 1; 0; 0; 0; 0; 1; 1; 1; 1]%nat.

(** ** What a call can do to the tables *)

(** The changes the handlers of the engine make, each with what the handler
    has tested before making it. *)
Inductive effect (t : Tables) : Tables -> Prop :=
| effect_none : effect t t
| effect_checkin v w aid eid n a e :
    athletes t !! aid = Some a -> events t !! eid = Some e ->
    List.find (for_pair aid eid) (checkins t) = None ->
    currentCapacity e < maxCapacity e ->
    existsb (has_id (uuid w)) (checkins t) = false ->
    effect t (checked_in v w aid eid n t)
| effect_reversed clock id c :
    List.find (has_id id) (checkins t) = Some c ->
    effect t (reversed clock id c t)
| effect_notes id n :
    effect t (mkTables (athletes t) (events t)
                (map (fun c => if has_id id c then annotate n c else c) (checkins t)))
| effect_event_deleted id :
    count_for id t = 0 ->
    effect t (mkTables (athletes t) (delete id (events t)) (checkins t))
| effect_toggled b clock id :
    effect t (mkTables (athletes t) (alter (activate b clock) id (events t)) (checkins t))
| effect_athlete_deleted id :
    effect t (mkTables (delete id (athletes t)) (events t) (checkins t)).

(** No two check-in rows share an id. *)
Definition unique_ids (t : Tables) : Prop := List.NoDup (map c_id (checkins t)).

(** No counter is above the capacity of its event. *)
Definition within_capacity (t : Tables) : Prop :=
  forall id e, events t !! id = Some e -> currentCapacity e <= maxCapacity e.

(** The tables after a list of operations, each run to its end before the
    next. *)
Definition after (Date_parse : string -> option Z) (ops : list Op) (t : Tables) : Tables :=
  cur (run_all (map (handler Date_parse) ops) (idle t)).2.

From Stdlib Require Import Sorted Permutation.

(** ** Read-only routes *)

(** The routes below send their statements one after the other and write
    nothing; each is given as what it answers on the tables it finds. *)

Inductive Answer (A : Type) : Type :=
| Answered (code : Z) (payload : A)
| Refused (code : Z) (msg : string).

Arguments Answered {A} code payload.
Arguments Refused {A} code msg.

(** [ORDER BY key DESC]: the rows by falling key.  Among rows of equal key
    the store is free; here they keep the order of the table. *)
Fixpoint insert_desc {A} (key : A -> string) (x : A) (l : list A) : list A :=
  match l with
  | [] => [x]
  | y :: rest =>
      if String.ltb (key x) (key y) then y :: insert_desc key x rest else x :: l
  end.

Definition order_desc {A} (key : A -> string) (l : list A) : list A :=
  fold_right (insert_desc key) [] l.

Definition falling {A} (key : A -> string) (a b : A) : Prop :=
  String.leb (key b) (key a) = true.

(** GET /checkins/event/:eventId: [FROM checkins c JOIN athletes a ON
    c.athleteId = a.id WHERE c.eventId = ? ORDER BY c.checkInTime DESC]. *)
Definition with_athlete (t : Tables) (c : CheckIn) : option (CheckIn * Athlete) :=
  match athletes t !! athleteId c with
  | Some a => Some (c, a)
  | None => None
  end.

Definition eventCheckins (ev : string) (t : Tables) : list (CheckIn * Athlete) :=
  order_desc (fun r => checkInTime r.1)
    (omap (with_athlete t) (List.filter (for_event ev) (checkins t))).


Definition count_where (p : CheckIn -> bool) (t : Tables) : Z :=
  Z.of_nat (length (List.filter p (checkins t))).

Section Numbers.

(** [(count / maxCapacity * 100).toFixed(1)] on JavaScript numbers. *)
Variable percent_fixed : Z -> Z -> string.


End Numbers.

(** GET /checkins/stats and GET /checkins/export compare [DATE(checkInTime)]
    with a day. *)
Record CheckinStats := mkCheckinStats {
  stats_today : Z;
  stats_thisWeek : Z;
  stats_total : Z;
  stats_valid : Z;
  stats_invalid : Z
}.

Record ExportFilters := mkFilters {
  startDate : option string;
  endDate : option string;
  f_eventId : option string
}.

Section Dates.

(** SQLite's [DATE(s)], [None] for NULL.  A comparison with NULL selects
    no row. *)
Variable sql_date : string -> option string.

Definition date_is (day : string) (c : CheckIn) : bool :=
  match sql_date (checkInTime c) with
  | Some d => String.eqb d day
  | None => false
  end.

Definition date_from (day : string) (c : CheckIn) : bool :=
  match sql_date (checkInTime c) with
  | Some d => String.leb day d
  | None => false
  end.

Definition date_until (day : string) (c : CheckIn) : bool :=
  match sql_date (checkInTime c) with
  | Some d => String.leb d day
  | None => false
  end.

(** [clock] is [new Date().toISOString()], [clock_week] the same for the
    date moved back by [setDate(getDate() - 7)]. *)
Definition checkinStats (clock clock_week : string) (t : Tables) : CheckinStats :=
  let today := before_T clock in
  let weekAgo := before_T clock_week in
  mkCheckinStats (count_where (date_is today) t)
                 (count_where (date_from weekAgo) t)
                 (count_where (fun _ => true) t)
                 (count_where waiverValidated t)
                 (count_where (fun c => negb (waiverValidated c)) t).

(** The WHERE clause the export route puts together: [1=1] and one more
    condition for each filter that is truthy. *)
Definition export_where (q : ExportFilters) (c : CheckIn) : bool :=
  (match startDate q with
   | Some d => if truthy (Some d) then date_from d c else true
   | None => true
   end) &&
  (match endDate q with
   | Some d => if truthy (Some d) then date_until d c else true
   | None => true
   end) &&
  (match f_eventId q with
   | Some ev => if truthy (Some ev) then for_event ev c else true
   | None => true
   end).

Definition with_both (t : Tables) (c : CheckIn) : option (CheckIn * Athlete * Event) :=
  match athletes t !! athleteId c, events t !! eventId c with
  | Some a, Some e => Some (c, a, e)
  | _, _ => None
  end.

Definition exportCheckins (q : ExportFilters) (t : Tables)
  : list (CheckIn * Athlete * Event) :=
  order_desc (fun r => checkInTime r.1.1)
    (omap (with_both t) (List.filter (export_where q) (checkins t))).

End Dates.

(** ** Routes that write the events and athletes tables *)

(** These routes send one lookup, one write and one read back.  Each is
    given as a call that runs to its end on the tables it finds, with the
    answer and the tables afterwards.  The tables hold one row for an id, so
    an INSERT whose id is taken is refused, as it is for check-ins.  Columns
    the rows above do not carry (description, startTime, endTime, createdBy,
    phone, dateOfBirth, the emergency contact, waiverSignedDate, createdAt)
    are tested where the route tests them and otherwise left out. *)

Record EventBody := mkEventBody {
  eb_name : option string;
  eb_description : option string;
  eb_date : option string;
  eb_startTime : option string;
  eb_endTime : option string;
  eb_maxCapacity : option Z;
  eb_isActive : option bool
}.

(** [!maxCapacity] on a number or nothing. *)
Definition no_number (x : option Z) : bool :=
  match x with
  | Some n => n =? 0
  | None => true
  end.

(** POST /events. *)
Definition createEvent (clock id : string) (b : EventBody) (t : Tables)
  : Response * Tables :=
  if negb (truthy (eb_name b)) || negb (truthy (eb_date b))
     || negb (truthy (eb_startTime b)) || negb (truthy (eb_endTime b))
     || no_number (eb_maxCapacity b)
  then (json 400 (Error "All required fields must be provided"), t)
  else
    match eb_name b, eb_date b, eb_maxCapacity b with
    | Some name, Some date, Some maxCapacity =>
        if maxCapacity <=? 0
        then (json 400 (Error "Max capacity must be greater than 0"), t)
        else
          match events t !! id with
          | Some _ => (json 500 (Error "Failed to create event"), t)
          | None =>
              let t' := mkTables (athletes t)
                          (<[id := mkEvent id name date maxCapacity 0 true clock]> (events t))
                          (checkins t) in
              (json 201 (EventUpdated (events t' !! id) "Event created successfully"), t')
          end
    | _, _, _ => (json 400 (Error "All required fields must be provided"), t)
    end.

(** [COALESCE(?, column)]. *)
Definition coalesce {A} (given : option A) (column : A) : A :=
  match given with
  | Some x => x
  | None => column
  end.

Definition revise (b : EventBody) (clock : string) (e : Event) : Event :=
  mkEvent (e_id e) (coalesce (eb_name b) (name e)) (coalesce (eb_date b) (date e))
          (coalesce (eb_maxCapacity b) (maxCapacity e)) (currentCapacity e)
          (coalesce (eb_isActive b) (isActive e)) clock.

(** PUT /events/:id. *)
Definition updateEvent (clock id : string) (b : EventBody) (t : Tables)
  : Response * Tables :=
  match events t !! id with
  | None => (json 404 (Error "Event not found"), t)
  | Some _ =>
      let t' := mkTables (athletes t) (alter (revise b clock) id (events t)) (checkins t) in
      (json 200 (EventUpdated (events t' !! id) "Event updated successfully"), t')
  end.

Record WaiverBody := mkWaiverBody {
  wb_hasValidWaiver : option bool;
  wb_waiverSignedDate : option string;
  wb_waiverExpirationDate : option string
}.

(** The three waiver columns are overwritten with what the request holds,
    NULL where it holds nothing; a flag that is NULL reads as false. *)
Definition sign (b : WaiverBody) (clock : string) (a : Athlete) : Athlete :=
  mkAthlete (a_id a) (firstName a) (lastName a) (email a)
            (coalesce (wb_hasValidWaiver b) false) (wb_waiverExpirationDate b)
            (lastVisited a) clock.

(** PATCH /athletes/:id/waiver. *)
Definition updateWaiver (clock id : string) (b : WaiverBody) (t : Tables)
  : Answer (option Athlete * string) * Tables :=
  match athletes t !! id with
  | None => (Refused 404 "Athlete not found", t)
  | Some _ =>
      let t' := mkTables (alter (sign b clock) id (athletes t)) (events t) (checkins t) in
      (Answered 200 (athletes t' !! id, "Waiver status updated successfully"), t')
  end.

Record AthleteBody := mkAthleteBody {
  ab_firstName : option string;
  ab_lastName : option string;
  ab_email : option string;
  ab_dateOfBirth : option string;
  ab_emergencyContact : option string;
  ab_emergencyPhone : option string;
  ab_hasValidWaiver : option bool;
  ab_waiverExpirationDate : option string
}.

(** [SELECT id FROM athletes WHERE email = ?]. *)
Definition email_taken (e : string) (m : gmap string Athlete) : bool :=
  bool_decide (map_Exists (fun _ a => email a = Some e) m).

(** POST /athletes ([hasValidWaiver = false] when the request has none). *)
Definition createAthlete (clock id : string) (b : AthleteBody) (t : Tables)
  : Answer (option Athlete * string) * Tables :=
  if negb (truthy (ab_firstName b)) || negb (truthy (ab_lastName b))
     || negb (truthy (ab_dateOfBirth b)) || negb (truthy (ab_emergencyContact b))
     || negb (truthy (ab_emergencyPhone b))
  then (Refused 400 "First name, last name, date of birth, emergency contact name, and emergency phone are required", t)
  else
    match ab_firstName b, ab_lastName b with
    | Some first, Some last =>
        if truthy (ab_email b) && email_taken (coalesce (ab_email b) "") (athletes t)
        then (Refused 400 "Athlete with this email already exists", t)
        else
          match athletes t !! id with
          | Some _ => (Refused 500 "Failed to create athlete", t)
          | None =>
              let t' := mkTables
                          (<[id := mkAthlete id first last (ab_email b)
                                     (coalesce (ab_hasValidWaiver b) false)
                                     (ab_waiverExpirationDate b) None clock]> (athletes t))
                          (events t) (checkins t) in
              (Answered 201 (athletes t' !! id, "Athlete created successfully"), t')
          end
    | _, _ => (Refused 400 "First name, last name, date of birth, emergency contact name, and emergency phone are required", t)
    end.

Definition amend (b : AthleteBody) (clock : string) (a : Athlete) : Athlete :=
  mkAthlete (a_id a) (coalesce (ab_firstName b) (firstName a))
            (coalesce (ab_lastName b) (lastName a))
            (match ab_email b with Some e => Some e | None => email a end)
            (coalesce (ab_hasValidWaiver b) (hasValidWaiver a))
            (match ab_waiverExpirationDate b with
             | Some d => Some d
             | None => waiverExpirationDate a
             end)
            (lastVisited a) clock.

(** PUT /athletes/:id.  [WHERE email = ? AND id != ?] looks at the other
    athletes only. *)
Definition updateAthlete (clock id : string) (b : AthleteBody) (t : Tables)
  : Answer (option Athlete * string) * Tables :=
  match athletes t !! id with
  | None => (Refused 404 "Athlete not found", t)
  | Some _ =>
      if truthy (ab_email b)
         && email_taken (coalesce (ab_email b) "") (delete id (athletes t))
      then (Refused 400 "Email already in use by another athlete", t)
      else
        let t' := mkTables (alter (amend b clock) id (athletes t)) (events t) (checkins t) in
        (Answered 200 (athletes t' !! id, "Athlete updated successfully"), t')
  end.

(** No two athletes share an email that is not empty. *)
Definition unique_emails (t : Tables) : Prop :=
  forall i j a b e,
    athletes t !! i = Some a -> athletes t !! j = Some b ->
    email a = Some e -> email b = Some e -> truthy (Some e) = true -> i = j.

(** ** More of the small venue *)

(** [DATE(s)] on the time stamps the routes write. *)
Definition iso_day (s : string) : option string := Some (before_T s).


Definition evening_gym : EventBody :=
  mkEventBody (Some "Evening gym") None (Some "2025-03-02") (Some "18:00") (Some "20:00")
              (Some 8) None.

Definition one_place_only : EventBody :=
  mkEventBody None None None None None (Some 1) None.

Definition signed_for_good : WaiverBody :=
  mkWaiverBody (Some true) (Some "2025-03-02") None.

Definition cat : AthleteBody :=
  mkAthleteBody (Some "Cat") (Some "Moss") (Some "cat@example.org") (Some "2001-05-06")
                (Some "Dee Moss") (Some "555-0101") None None.

Definition cat_with_bobs_email : AthleteBody :=
  mkAthleteBody (Some "Cat") (Some "Moss") (Some "bob@example.org") (Some "2001-05-06")
                (Some "Dee Moss") (Some "555-0101") None None.

Definition new_email : AthleteBody :=
  mkAthleteBody None None (Some "ann@example.org") None None None None None.

(** A day at the desk. *)
Definition busy_day : list Op :=
  [CreateCheckIn (at_desk "c1") (ask "a1" "e1");
   CreateCheckIn (at_desk "c2") (ask "a2" "e1");
   UpdateNotes "c1" (Some "late");
   ToggleEvent "2025-03-02T10:30:00.000Z" "e3";
   ReverseCheckIn "2025-03-02T11:00:00.000Z" "c1";
   CreateCheckIn (at_desk "c3") (ask "a2" "e1");
   RemoveAthlete "a1";
   RemoveEvent "e2"].

From Stdlib Require Import SpecFloat DecimalString.

(** ** Statements the store refuses *)

Inductive Kind := Reading | Writing | Beginning | Committing | RollingBack.

Definition kind_of {A} (q : Query A) : Kind :=
  match q with
  | Begin => Beginning
  | Commit => Committing
  | Rollback => RollingBack
  | InsertCheckin _ | AddCapacity _ _ _ | SetLastVisited _ _ _ | SetNotes _ _
  | SetActive _ _ _ | DeleteCheckin _ | DeleteEvent _ | DeleteAthlete _ => Writing
  | _ => Reading
  end.

(** One statement as the store saw it: what it was, and whether its promise
    was rejected. *)
Record Sent := mkSent { what : Kind; rejected : bool }.

Record Outcome := mkOutcome {
  log : list Sent;
  answer : Response;
  store : DB
}.

(** Modelled from the spec: the store module is not part of the sources.
    Every [await] of the handlers sits in a [try], so a statement may be
    rejected for a reason the tables do not show (a busy or failing
    database).  [refused] says that the store rejects this statement; a
    rejected statement changes nothing. *)
Definition attempt {A} (refused : bool) (q : Query A) (db : DB) : option A * DB :=
  if refused then (None, db) else exec q db.

(** A call that runs to its response with nothing in between, against a
    store that rejects the statements [refuses] names, counted from [n] in
    the order the call sends them. *)
Fixpoint run_under (refuses : nat -> bool) (n : nat) (p : Prog) (db : DB) : Outcome :=
  match p with
  | Send r => mkOutcome [] r db
  | Await q k =>
      let '(a, db') := attempt (refuses n) q db in
      let rest := run_under refuses (S n) (k a) db' in
      mkOutcome (mkSent (kind_of q) (match a with Some _ => false | None => true end)
                   :: log rest)
                (answer rest) (store rest)
  end.

(** A store that rejects nothing but what the tables make it reject. *)
Definition willing : nat -> bool := fun _ => false.

(** A store that rejects the [k]-th statement of the call only. *)
Definition refusing (k : nat) : nat -> bool := Nat.eqb k.

(** Where a call stands with respect to its transaction. *)
Inductive Phase :=
| Outside      (* no BEGIN yet *)
| Inside       (* after BEGIN *)
| Broken       (* a statement was rejected after BEGIN *)
| Committed    (* after COMMIT *)
| Spent        (* a read was rejected after COMMIT *)
| Over.        (* nothing more may be sent *)

Definition next (ph : Phase) (s : Sent) : option Phase :=
  match ph, what s, rejected s with
  | Outside, Reading, false => Some Outside
  | Outside, Reading, true => Some Over
  | Outside, Beginning, false => Some Inside
  | Outside, Beginning, true => Some Over
  | Inside, (Reading | Writing), false => Some Inside
  | Inside, Committing, false => Some Committed
  | Inside, (Reading | Writing | Committing), true => Some Broken
  | Broken, RollingBack, _ => Some Over
  | Committed, Reading, false => Some Committed
  | Committed, Reading, true => Some Spent
  | Spent, RollingBack, true => Some Over
  | _, _, _ => None
  end.

Fixpoint follows (ph : Phase) (l : list Sent) : option Phase :=
  match l with
  | [] => Some ph
  | s :: rest =>
      match next ph s with
      | Some ph' => follows ph' rest
      | None => None
      end
  end.

(** The statements of a call make up one transaction: no write before
    BEGIN, one BEGIN at most, every statement between BEGIN and COMMIT
    accepted, a rejected one followed at once by ROLLBACK and by nothing
    else, and nothing but reads after COMMIT.  A call that answers before
    BEGIN has sent reads only. *)
Definition accepting (ph : option Phase) : bool :=
  match ph with
  | Some (Outside | Committed | Over) => true
  | _ => false
  end.

Definition one_transaction (l : list Sent) : bool := accepting (follows Outside l).

(** The rest of a call, from its statement [n] on, with the transaction in
    phase [ph]: its statements keep to the one transaction, and its answer
    and the store it leaves are as [Q] says. *)
Definition ends_as (Q : Response -> DB -> Prop) (refuses : nat -> bool)
    (ph : Phase) (n : nat) (p : Prog) (db : DB) : Prop :=
  accepting (follows ph (log (run_under refuses n p db))) = true /\
  Q (answer (run_under refuses n p db)) (store (run_under refuses n p db)).

(** ** JavaScript numbers *)






Section Numbers_toFixed.

(** [Number::toString], which [toFixed] hands values of 10^21 and above to. *)
Variable Number_toString : spec_float -> string.



End Numbers_toFixed.





(** ** More requests and tables to evaluate the handlers on *)

(** Ann asks twice for a place in the clinic, from two browser tabs. *)
Definition ann_first : Prog := createCheckIn sample_parse (at_desk "c1") (ask "a1" "e2").
Definition ann_again : Prog := createCheckIn sample_parse (at_desk "c2") (ask "a1" "e2").

(** Both requests are past their three reads before either opens its
    transaction. *)
Definition both_past_the_reads : list nat :=
  [0; 0; 0; 1; 1; 1; 0; 0; 0; 0; 0; 0; 1; 1; 1; 1; 1; 1]%nat.

(** Two requests resumed in turn until the first has its response, then the
    second alone. *)
Definition in_turn : list nat :=
  [0; 1; 0; 1; 0; 1; 1; 1; 1; 1; 1; 1]%nat.

(** The clinic with Ann and Bob checked in. *)
Definition clinic_day : Tables :=
  checked_in false (at_desk "c2") "a2" "e2" None
    (checked_in true (at_desk "c1") "a1" "e2" None venue).






(** An update that sends empty strings for the email and the expiration
    date. *)
Definition blanks : AthleteBody :=
  mkAthleteBody None None (Some "") None None None None (Some "").

(** * Properties *)

(** ** Strings, lists *)

Lemma leb_ltb (a b : string) : String.leb a b = negb (String.ltb b a).
Proof.
  unfold String.leb, String.ltb. rewrite (String.compare_antisym b a).
  destruct (String.compare a b); reflexivity.
Qed.

Lemma find_filter_nil {A} (f : A -> bool) (l : list A) :
  List.find f l = None -> List.filter f l = [].
Proof.
  induction l as [|x l IH]; cbn; [reflexivity|].
  destruct (f x); [discriminate | exact IH].
Qed.

Lemma find_existsb {A} (f : A -> bool) (l : list A) :
  existsb f l = true -> exists x, List.find f l = Some x.
Proof.
  induction l as [|x l IH]; cbn; [discriminate|].
  destruct (f x); cbn; eauto.
Qed.

Lemma filter_length_le {A} (f g : A -> bool) (l : list A) :
  (length (List.filter f (List.filter g l)) <= length (List.filter f l))%nat.
Proof.
  induction l as [|x l IH]; cbn; [lia|].
  destruct (g x); cbn; destruct (f x); cbn; lia.
Qed.

Lemma for_pair_annotate a ev n c : for_pair a ev (annotate n c) = for_pair a ev c.
Proof. reflexivity. Qed.

Lemma filter_annotate a ev n id (l : list CheckIn) :
  length (List.filter (for_pair a ev)
            (map (fun c => if has_id id c then annotate n c else c) l))
  = length (List.filter (for_pair a ev) l).
Proof.
  induction l as [|x l IH]; cbn [map List.filter]; [reflexivity|].
  replace (for_pair a ev (if has_id id x then annotate n x else x))
    with (for_pair a ev x) by (destruct (has_id id x); reflexivity).
  destruct (for_pair a ev x); cbn [length]; rewrite IH; reflexivity.
Qed.

Lemma for_pair_eq a ev a' ev' (c : CheckIn) :
  for_pair a ev c = true -> for_pair a' ev' c = true -> a = a' /\ ev = ev'.
Proof.
  unfold for_pair. rewrite !andb_true_iff, !String.eqb_eq. intuition congruence.
Qed.

(** ** What each handler does when nothing runs in between *)

Ltac start := unfold await, reply; cbn [run trace exec idle cur txn write open].
Ltac finish := cbn [run trace exec idle cur txn write open option_map c_id]; try reflexivity.

Lemma run_reverseCheckIn clock id t :
  run (reverseCheckIn clock id) (idle t) =
  match List.find (has_id id) (checkins t) with
  | Some c => (json 200 (Message "Check-in deleted successfully"), idle (reversed clock id c t))
  | None => (json 404 (Error "Check-in not found"), idle t)
  end.
Proof.
  unfold reverseCheckIn. start.
  destruct (List.find (has_id id) (checkins t)); finish.
Qed.

Lemma run_updateNotes id n t :
  let t' := mkTables (athletes t) (events t)
              (map (fun c => if has_id id c then annotate n c else c) (checkins t)) in
  run (updateNotes id n) (idle t) =
  match List.find (has_id id) (checkins t) with
  | Some _ =>
      (json 200 (CheckinUpdated
                   (head (omap (join_row t') (List.filter (has_id id) (checkins t'))))
                   "Notes updated successfully"), idle t')
  | None => (json 404 (Error "Check-in not found"), idle t)
  end.
Proof.
  unfold updateNotes. start.
  destruct (List.find (has_id id) (checkins t)); finish.
Qed.

Lemma run_deleteEvent id t :
  run (deleteEvent id) (idle t) =
  match events t !! id with
  | Some _ =>
      if count_for id t >? 0
      then (json 400 (Error "Cannot delete event with existing check-ins. Deactivate it instead."),
            idle t)
      else (json 200 (Message "Event deleted successfully"),
            idle (mkTables (athletes t) (delete id (events t)) (checkins t)))
  | None => (json 404 (Error "Event not found"), idle t)
  end.
Proof.
  unfold deleteEvent, count_for. start.
  destruct (events t !! id); finish.
  destruct (_ >? 0); finish.
Qed.

Lemma run_toggleEvent clock id t :
  run (toggleEvent clock id) (idle t) =
  match events t !! id with
  | Some e =>
      let evs := alter (activate (negb (isActive e)) clock) id (events t) in
      (json 200 (EventUpdated (evs !! id)
                   (if negb (isActive e) then "Event activated successfully"
                    else "Event deactivated successfully")),
       idle (mkTables (athletes t) evs (checkins t)))
  | None => (json 404 (Error "Event not found"), idle t)
  end.
Proof.
  unfold toggleEvent. start.
  destruct (events t !! id); finish.
Qed.

Lemma run_deleteAthlete id t :
  run (deleteAthlete id) (idle t) =
  match athletes t !! id with
  | Some _ => (json 200 (Message "Athlete deleted successfully"),
               idle (mkTables (delete id (athletes t)) (events t) (checkins t)))
  | None => (json 404 (Error "Athlete not found"), idle t)
  end.
Proof.
  unfold deleteAthlete. start.
  destruct (athletes t !! id); finish.
Qed.

(** ** POST /checkins, path by path *)

Section Create.

Variable Date_parse : string -> option Z.

Ltac enter H :=
  destruct H as (Hb1 & Hb2 & Hn1 & Hn2 & Hat & Het);
  unfold createCheckIn; rewrite Hb1, Hb2, Hn1, Hn2; cbn [negb orb];
  start; rewrite Hat; start; rewrite Het.

Lemma create_inactive w b t aid eid a e :
  reaches_event b t aid eid a e -> isActive e = false ->
  run (createCheckIn Date_parse w b) (idle t)
  = (json 404 (Error "Event not found or inactive"), idle t).
Proof. intros H Hact. enter H. rewrite Hact. finish. Qed.

Lemma create_past w b t aid eid a e :
  reaches_event b t aid eid a e -> isActive e = true ->
  str_lt (date e) (before_T (clock_today w)) = true ->
  run (createCheckIn Date_parse w b) (idle t)
  = (json 400 (Error "Cannot check into past events"), idle t).
Proof. intros H Hact Hp. enter H. rewrite Hact, Hp. finish. Qed.

Lemma create_duplicate w b t aid eid a e :
  reaches_event b t aid eid a e -> isActive e = true ->
  str_lt (date e) (before_T (clock_today w)) = false ->
  existsb (for_pair aid eid) (checkins t) = true ->
  run (createCheckIn Date_parse w b) (idle t)
  = (json 400 (Error "Athlete already checked in for this event"), idle t).
Proof.
  intros H Hact Hp Hd. apply find_existsb in Hd as [c Hc].
  enter H. rewrite Hact, Hp. start. rewrite Hc. finish.
Qed.

Lemma create_full w b t aid eid a e :
  reaches_event b t aid eid a e -> isActive e = true ->
  str_lt (date e) (before_T (clock_today w)) = false ->
  List.find (for_pair aid eid) (checkins t) = None ->
  currentCapacity e >= maxCapacity e ->
  run (createCheckIn Date_parse w b) (idle t)
  = (json 400 (Error "Event is at full capacity"), idle t).
Proof.
  intros H Hact Hp Hd Hc. enter H. rewrite Hact, Hp. start. rewrite Hd.
  cbn [option_map]. replace (currentCapacity e >=? maxCapacity e) with true by lia.
  finish.
Qed.

Lemma create_clash w b t aid eid a e :
  reaches_event b t aid eid a e -> isActive e = true ->
  str_lt (date e) (before_T (clock_today w)) = false ->
  List.find (for_pair aid eid) (checkins t) = None ->
  currentCapacity e < maxCapacity e ->
  existsb (has_id (uuid w)) (checkins t) = true ->
  run (createCheckIn Date_parse w b) (idle t)
  = (json 500 (Error "Failed to create check-in"), idle t).
Proof.
  intros H Hact Hp Hd Hc Hk. enter H. rewrite Hact, Hp. start. rewrite Hd.
  cbn [option_map]. replace (currentCapacity e >=? maxCapacity e) with false by lia.
  finish. rewrite Hk. finish.
Qed.

Lemma create_ok w b t aid eid a e :
  reaches_event b t aid eid a e -> isActive e = true ->
  str_lt (date e) (before_T (clock_today w)) = false ->
  List.find (for_pair aid eid) (checkins t) = None ->
  currentCapacity e < maxCapacity e ->
  existsb (has_id (uuid w)) (checkins t) = false ->
  let v := waiver_check Date_parse a (clock_now w) in
  let t' := checked_in v w aid eid (b_notes b) t in
  run (createCheckIn Date_parse w b) (idle t)
  = (json 201 (CheckinCreated
                 (head (omap (join_row t') (List.filter (has_id (uuid w)) (checkins t'))))
                 v
                 (if v then "Check-in successful - waiver validated"
                  else "Check-in successful - WAIVER VALIDATION REQUIRED")),
     idle t').
Proof.
  intros H Hact Hp Hd Hc Hk. enter H. rewrite Hact, Hp. start. rewrite Hd.
  cbn [option_map]. replace (currentCapacity e >=? maxCapacity e) with false by lia.
  finish. rewrite Hk. finish.
Qed.

(** Every call ends in one of two ways: all three writes are in the tables,
    or the tables are what they were. *)
Lemma createCheckIn_cases w b t :
  let out := run (createCheckIn Date_parse w b) (idle t) in
  (exists aid eid a e,
      reaches_event b t aid eid a e /\
      isActive e = true /\
      str_lt (date e) (before_T (clock_today w)) = false /\
      List.find (for_pair aid eid) (checkins t) = None /\
      currentCapacity e < maxCapacity e /\
      existsb (has_id (uuid w)) (checkins t) = false /\
      status out.1 = 201 /\
      out.2 = idle (checked_in (waiver_check Date_parse a (clock_now w))
                      w aid eid (b_notes b) t))
  \/ (succeeded out.1 = false /\ out.2 = idle t).
Proof.
  cbn zeta.
  destruct (b_athleteId b) as [aid|] eqn:Hb1;
    [|right; unfold createCheckIn; rewrite Hb1; split; reflexivity].
  destruct (b_eventId b) as [eid|] eqn:Hb2;
    [|right; unfold createCheckIn; rewrite Hb1, Hb2; split; reflexivity].
  destruct (truthy (Some aid)) eqn:Hn1;
    [|right; unfold createCheckIn; rewrite Hb1, Hb2, Hn1; split; reflexivity].
  destruct (truthy (Some eid)) eqn:Hn2;
    [|right; unfold createCheckIn; rewrite Hb1, Hb2, Hn1, Hn2; split; reflexivity].
  destruct (athletes t !! aid) as [a|] eqn:Hat;
    [|right; unfold createCheckIn; rewrite Hb1, Hb2, Hn1, Hn2; cbn [negb orb]; start;
      rewrite Hat; split; reflexivity].
  destruct (events t !! eid) as [e|] eqn:Het;
    [|right; unfold createCheckIn; rewrite Hb1, Hb2, Hn1, Hn2; cbn [negb orb]; start;
      rewrite Hat; start; rewrite Het; split; reflexivity].
  assert (Hr : reaches_event b t aid eid a e) by (repeat split; assumption).
  destruct (isActive e) eqn:Hact;
    [|right; rewrite (create_inactive w b t aid eid a e Hr Hact); split; reflexivity].
  destruct (str_lt (date e) (before_T (clock_today w))) eqn:Hp;
    [right; rewrite (create_past w b t aid eid a e Hr Hact Hp); split; reflexivity|].
  destruct (existsb (for_pair aid eid) (checkins t)) eqn:Hd;
    [right; rewrite (create_duplicate w b t aid eid a e Hr Hact Hp Hd); split; reflexivity|].
  assert (Hf : List.find (for_pair aid eid) (checkins t) = None).
  { destruct (List.find (for_pair aid eid) (checkins t)) as [c|] eqn:Hc; [|reflexivity].
    apply find_some in Hc as [Hin Hc].
    assert (existsb (for_pair aid eid) (checkins t) = true)
      by (apply existsb_exists; eauto).
    congruence. }
  destruct (Z_lt_ge_dec (currentCapacity e) (maxCapacity e)) as [Hc|Hc];
    [|right; rewrite (create_full w b t aid eid a e Hr Hact Hp Hf Hc); split; reflexivity].
  destruct (existsb (has_id (uuid w)) (checkins t)) eqn:Hk;
    [right; rewrite (create_clash w b t aid eid a e Hr Hact Hp Hf Hc Hk); split; reflexivity|].
  left. exists aid, eid, a, e.
  rewrite (create_ok w b t aid eid a e Hr Hact Hp Hf Hc Hk).
  repeat split; try assumption; apply Hr.
Qed.

End Create.

(** ** Calls and turns of the event loop *)

(** A request resumed alone, turn after turn, ends where [run] says. *)
Lemma run_by_steps (p : Prog) : forall db,
  exists n, interleave (replicate n 0%nat) [p] db = ([Send (run p db).1], (run p db).2).
Proof.
  induction p as [r | A q k IH]; intros db.
  - exists 0%nat. reflexivity.
  - cbn [run]. destruct (exec q db) as [a db1] eqn:He.
    destruct (IH a db1) as [n Hn]. exists (S n).
    cbn [replicate interleave lookup list_lookup step]. rewrite He. exact Hn.
Qed.

(** * The claims *)

Section Claims.

Variable Date_parse : string -> option Z.

(** ** Waiver *)

(** C7.  The waiver flag computed at check-in is false when [hasValidWaiver]
    is false, whatever the expiration; true when [hasValidWaiver] is true and
    no expiration date is present; and, with an expiration date present, true
    exactly when the expiration is strictly later than the clock reading, so
    that an expiration equal to it gives false.  That flag is what a
    successful check-in answers with and stores on the new row. *)
Theorem waiver_rule (athlete : Athlete) (now : Z) :
  (hasValidWaiver athlete = false -> waiver_check Date_parse athlete now = false) /\
  (hasValidWaiver athlete = true -> truthy (waiverExpirationDate athlete) = false ->
     waiver_check Date_parse athlete now = true) /\
  (forall s, hasValidWaiver athlete = true ->
     waiverExpirationDate athlete = Some s -> truthy (Some s) = true ->
     (waiver_check Date_parse athlete now = true <->
        exists expires, Date_parse s = Some expires /\ now < expires) /\
     (Date_parse s = Some now -> waiver_check Date_parse athlete now = false)) /\
  (forall w b t aid eid e,
     reaches_event b t aid eid athlete e -> clock_now w = now ->
     let out := run (createCheckIn Date_parse w b) (idle t) in
     succeeded out.1 = true ->
     (exists view msg,
        out.1 = json 201 (CheckinCreated view (waiver_check Date_parse athlete now) msg)) /\
     last (checkins (cur out.2))
       = Some (new_row (waiver_check Date_parse athlete now) w aid eid (b_notes b))).
Proof.
  repeat split.
  - intros H. unfold waiver_check. rewrite H. reflexivity.
  - intros H Hn. unfold waiver_check. rewrite H.
    destruct (waiverExpirationDate athlete) as [s|]; [|reflexivity].
    rewrite Hn. reflexivity.
  - unfold waiver_check. rewrite H, H0, H1. unfold date_gt.
    destruct (Date_parse s) as [x|]; [|discriminate].
    intros Hlt. exists x. split; [reflexivity | lia].
  - intros (x & Hx & Hlt). unfold waiver_check. rewrite H, H0, H1, Hx.
    unfold date_gt. lia.
  - intros Hx. unfold waiver_check. rewrite H, H0, H1, Hx. unfold date_gt. lia.
  - destruct (createCheckIn_cases Date_parse w b t)
      as [(aid' & eid' & a' & e' & Hr & Hact & Hp & Hf & Hc & Hk & _) | [Hno _]];
      [|cbn zeta in *; congruence].
    destruct H as (Hb1 & Hb2 & Hn1 & Hn2 & Hat & Het).
    pose proof Hr as (Hb1' & Hb2' & _ & _ & Hat' & Het').
    assert (aid' = aid) by congruence. assert (eid' = eid) by congruence. subst aid' eid'.
    assert (a' = athlete) by congruence. assert (e' = e) by congruence. subst a' e'.
    rewrite (create_ok Date_parse w b t aid eid athlete e Hr Hact Hp Hf Hc Hk).
    rewrite H0. eauto.
  - destruct (createCheckIn_cases Date_parse w b t)
      as [(aid' & eid' & a' & e' & Hr & Hact & Hp & Hf & Hc & Hk & _) | [Hno _]];
      [|cbn zeta in *; congruence].
    destruct H as (Hb1 & Hb2 & Hn1 & Hn2 & Hat & Het).
    pose proof Hr as (Hb1' & Hb2' & _ & _ & Hat' & Het').
    assert (aid' = aid) by congruence. assert (eid' = eid) by congruence. subst aid' eid'.
    assert (a' = athlete) by congruence. assert (e' = e) by congruence. subst a' e'.
    rewrite (create_ok Date_parse w b t aid eid athlete e Hr Hact Hp Hf Hc Hk).
    rewrite H0. cbn [snd idle cur checked_in checkins]. apply last_snoc.
Qed.

(** ** Eligibility *)

(** ** Capacity *)

Lemma run_all_cons p ps db :
  run_all (p :: ps) db
  = ((run p db).1 :: (run_all ps (run p db).2).1, (run_all ps (run p db).2).2).
Proof.
  cbn [run_all]. destruct (run p db) as [r db1]. cbn [fst snd].
  destruct (run_all ps db1) as [rs db2]. reflexivity.
Qed.

Lemma accepted_cons ev c calls r rs :
  accepted ev (c :: calls) (r :: rs)
  = ((if bool_decide (b_eventId c.2 = Some ev) && succeeded r then 1 else 0)
     + accepted ev calls rs)%nat.
Proof.
  unfold accepted. cbn [combine List.filter fst snd].
  destruct (bool_decide (b_eventId c.2 = Some ev) && succeeded r); reflexivity.
Qed.

(** The counter of one event along calls that follow one another. *)
Lemma capacity_run ev calls : forall t e,
  events t !! ev = Some e ->
  currentCapacity e <= maxCapacity e ->
  let out := run_all (requests Date_parse calls) (idle t) in
  exists t' e', out.2 = idle t' /\ events t' !! ev = Some e' /\
    maxCapacity e' = maxCapacity e /\
    currentCapacity e' = currentCapacity e + Z.of_nat (accepted ev calls out.1) /\
    currentCapacity e' <= maxCapacity e'.
Proof.
  induction calls as [|c calls IH]; intros t e He Hle; cbn zeta.
  - exists t, e. cbn. repeat split; try assumption; lia.
  - unfold requests. cbn [map]. fold (requests Date_parse calls). rewrite run_all_cons.
    cbn [fst snd]. rewrite accepted_cons.
    destruct (createCheckIn_cases Date_parse c.1 c.2 t)
      as [(aid & eid & a & e0 & Hr & Hact & Hp & Hf & Hc & Hk & Hst & Hdb) | [Hno Hdb]].
    + cbn zeta in Hst, Hdb. rewrite Hdb.
      assert (Hok : succeeded (run (createCheckIn Date_parse c.1 c.2) (idle t)).1 = true)
        by (unfold succeeded; rewrite Hst; reflexivity).
      rewrite Hok, andb_true_r.
      destruct Hr as (_ & Hb2 & _ & _ & _ & Het).
      destruct (decide (eid = ev)) as [->|Hne].
      * assert (e0 = e) by congruence. subst e0.
        rewrite bool_decide_eq_true_2 by exact Hb2.
        set (t1 := checked_in _ _ _ _ _ t).
        destruct (IH t1 (bump 1 (clock_checkin c.1) e)) as (t' & e' & H1 & H2 & H3 & H4 & H5).
        { unfold t1. cbn [checked_in events]. rewrite lookup_alter_eq, He. reflexivity. }
        { cbn [bump currentCapacity maxCapacity]. lia. }
        exists t', e'. cbn zeta in *. rewrite H1. repeat split; try assumption.
        rewrite H4. cbn [bump currentCapacity]. lia.
      * rewrite bool_decide_eq_false_2 by congruence.
        set (t1 := checked_in _ _ _ _ _ t).
        destruct (IH t1 e) as (t' & e' & H1 & H2 & H3 & H4 & H5).
        { unfold t1. cbn [checked_in events]. rewrite lookup_alter_ne by exact Hne. exact He. }
        { exact Hle. }
        exists t', e'. cbn zeta in *. rewrite H1. repeat split; try assumption.
    + cbn zeta in Hno, Hdb. rewrite Hdb, Hno, andb_false_r.
      destruct (IH t e He Hle) as (t' & e' & H1 & H2 & H3 & H4 & H5).
      exists t', e'. cbn zeta in *. rewrite H1. repeat split; try assumption.
Qed.

(** ** One check-in per athlete and event *)

Lemma unique_checked_in v w aid eid n t :
  List.find (for_pair aid eid) (checkins t) = None ->
  unique_pairs t -> unique_pairs (checked_in v w aid eid n t).
Proof.
  intros Hf Hu a ev. cbn [checked_in checkins].
  rewrite List.filter_app, length_app. cbn [List.filter].
  destruct (for_pair a ev (new_row v w aid eid n)) eqn:Hn; cbn [length].
  - assert (a = aid /\ ev = eid) as [-> ->].
    { unfold for_pair, new_row in Hn. cbn in Hn.
      apply andb_true_iff in Hn as [H1 H2].
      apply String.eqb_eq in H1, H2. split; congruence. }
    rewrite (find_filter_nil _ _ Hf). cbn. lia.
  - specialize (Hu a ev). lia.
Qed.

(** Every operation leaves the store without an open transaction and keeps
    the pairs apart. *)
Lemma handler_unique o t :
  exists t', (run (handler Date_parse o) (idle t)).2 = idle t' /\
             (unique_pairs t -> unique_pairs t').
Proof.
  destruct o as [w b | clock id | id n | id | clock id | id]; cbn [handler].
  - destruct (createCheckIn_cases Date_parse w b t)
      as [(aid & eid & a & e & _ & _ & _ & Hf & _ & _ & _ & Hdb) | [_ Hdb]];
      cbn zeta in Hdb; rewrite Hdb; eexists; split; try reflexivity.
    + apply unique_checked_in, Hf.
    + trivial.
  - rewrite run_reverseCheckIn.
    destruct (List.find (has_id id) (checkins t)) as [c|];
      eexists; (split; [reflexivity|]); [|trivial].
    intros Hu a ev. cbn [reversed checkins].
    etransitivity; [apply filter_length_le | apply Hu].
  - rewrite run_updateNotes. cbn zeta.
    destruct (List.find (has_id id) (checkins t)) as [c|];
      eexists; (split; [reflexivity|]); [|trivial].
    intros Hu a ev. cbn [checkins]. rewrite filter_annotate. apply Hu.
  - rewrite run_deleteEvent.
    destruct (events t !! id); [destruct (count_for id t >? 0)|];
      eexists; (split; [reflexivity|]); trivial.
  - rewrite run_toggleEvent.
    destruct (events t !! id); eexists; (split; [reflexivity|]); trivial.
  - rewrite run_deleteAthlete.
    destruct (athletes t !! id); eexists; (split; [reflexivity|]); trivial.
Qed.

Lemma unique_run ops : forall t,
  unique_pairs t ->
  exists t', (run_all (map (handler Date_parse) ops) (idle t)).2 = idle t' /\
             unique_pairs t'.
Proof.
  induction ops as [|o ops IH]; intros t Hu.
  - exists t. split; [reflexivity | exact Hu].
  - cbn [map]. rewrite run_all_cons. cbn [snd].
    destruct (handler_unique o t) as (t1 & H1 & Hu1). rewrite H1.
    apply IH, Hu1, Hu.
Qed.

End Claims.

(** ** Reversal *)

Lemma filter_hit {A} (f : A -> bool) (x : A) (l : list A) :
  In x l -> f x = true -> (1 <= length (List.filter f l))%nat.
Proof.
  intros Hin Hf. assert (H : In x (List.filter f l)) by (apply filter_In; auto).
  destruct (List.filter f l); [destruct H | cbn; lia].
Qed.

(** ** Deleting an athlete *)

(** C10.  Deleting an athlete removes the athlete row and nothing else: the
    check-in rows, those of the deleted athlete included, every event with
    its counter, and every other athlete are as before. *)
Theorem deleteAthlete_frame id t :
  let out := run (deleteAthlete id) (idle t) in
  checkins (cur out.2) = checkins t /\
  events (cur out.2) = events t /\
  athletes (cur out.2) = delete id (athletes t) /\
  txn out.2 = None /\
  (forall c, In c (checkins t) -> athleteId c = id -> In c (checkins (cur out.2))) /\
  (forall ev e, events t !! ev = Some e ->
     exists e', events (cur out.2) !! ev = Some e' /\
                currentCapacity e' = currentCapacity e) /\
  (forall other, other <> id -> athletes (cur out.2) !! other = athletes t !! other).
Proof.
  cbn zeta. rewrite run_deleteAthlete.
  destruct (athletes t !! id) as [a|] eqn:Ha; cbn [fst snd idle cur txn checkins events athletes].
  - repeat split; trivial.
    + intros ev e He. eauto.
    + intros other Hne. apply lookup_delete_ne. congruence.
  - repeat split; trivial.
    + symmetry. apply delete_id. exact Ha.
    + intros ev e He. eauto.
Qed.

(** ** Overlapping requests *)

(** C2, evaluated.  One place is left in the open gym.  When Ann's request
    runs to its end before Bob's starts, Ann is accepted and Bob is answered
    400 "Event is at full capacity".  When both requests have read the event
    before either writes, both are accepted: two rows are on file and the
    counter stands at 2 with maxCapacity 1. *)
Theorem last_slot_race :
  let serial := interleave one_after_the_other [ann_asks; bob_asks] (idle venue) in
  let raced := interleave overlapping [ann_asks; bob_asks] (idle venue) in
  (maxCapacity <$> events venue !! "e1") = Some 1 /\
  (currentCapacity <$> events venue !! "e1") = Some 0 /\
  map (fun p => status <$> response_of p) serial.1 = [Some 201; Some 400] /\
  (currentCapacity <$> events (cur serial.2) !! "e1") = Some 1 /\
  map (fun p => status <$> response_of p) raced.1 = [Some 201; Some 201] /\
  (currentCapacity <$> events (cur raced.2) !! "e1") = Some 2 /\
  (maxCapacity <$> events (cur raced.2) !! "e1") = Some 1 /\
  length (List.filter (for_event "e1") (checkins (cur raced.2))) = 2%nat /\
  txn raced.2 = None.
Proof. vm_compute. repeat split; reflexivity. Qed.
(** ** The claims on the small venue *)

Lemma waiver_rule_witness :
  let out := run (createCheckIn sample_parse (at_desk "c1") (ask "a1" "e1")) (idle venue) in
  waiver_check sample_parse bob 1748736000000 = false /\
  waiver_check sample_parse ann 1748736000000 = false /\
  waiver_check sample_parse ann 1748735999000 = true /\
  last (checkins (cur out.2))
    = Some (new_row (waiver_check sample_parse ann 1740909600000)
              (at_desk "c1") "a1" "e1" None).
Proof.
  split; [|split; [|split]].
  - apply (proj1 (waiver_rule sample_parse bob 1748736000000)). reflexivity.
  - destruct (waiver_rule sample_parse ann 1748736000000) as (_ & _ & H & _).
    apply (H "2025-06-01T00:00:00.000Z"); reflexivity.
  - destruct (waiver_rule sample_parse ann 1748735999000) as (_ & _ & H & _).
    apply (H "2025-06-01T00:00:00.000Z"); try reflexivity.
    exists 1748736000000. split; [reflexivity | lia].
  - destruct (waiver_rule sample_parse ann 1740909600000) as (_ & _ & _ & H).
    apply (H (at_desk "c1") (ask "a1" "e1") venue "a1" "e1" open_gym).
    + vm_compute. repeat split; reflexivity.
    + reflexivity.
    + vm_compute. reflexivity.
Defined.



Lemma deleteAthlete_frame_witness :
  let out := run (deleteAthlete "a1") (idle venue_full) in
  checkins (cur out.2) = checkins venue_full /\
  athletes (cur out.2) !! "a2" = athletes venue_full !! "a2" /\
  In (new_row true (at_desk "c1") "a1" "e1" None) (checkins (cur out.2)).
Proof.
  pose proof (deleteAthlete_frame "a1" venue_full) as (H1 & _ & _ & _ & H5 & _ & H7).
  split; [exact H1|]. split.
  - apply H7. discriminate.
  - apply H5; [left; reflexivity | reflexivity].
Defined.

(** ** The scenario of the design document *)

(** One place: Ann is checked in, Bob is turned away, Ann's check-in is
    reversed, Bob is checked in. *)
Example one_place_scenario :
  let out := run_all (map (handler sample_parse)
                        [CreateCheckIn (at_desk "c1") (ask "a1" "e1");
                         CreateCheckIn (at_desk "c2") (ask "a2" "e1");
                         ReverseCheckIn "2025-03-02T11:00:00.000Z" "c1";
                         CreateCheckIn (at_desk "c3") (ask "a2" "e1")])
                   (idle venue) in
  map status out.1 = [201; 400; 200; 201] /\
  map error_kind out.1 = [None; Some Conflict; None; None] /\
  (currentCapacity <$> events (cur out.2) !! "e1") = Some 1 /\
  map athleteId (checkins (cur out.2)) = ["a2"].
Proof. vm_compute. repeat split; reflexivity. Qed.

(** * Further properties of the handlers *)

(** ** Lists of rows *)

Lemma find_app_last {A} (f : A -> bool) (l : list A) (x : A) :
  existsb f l = false -> f x = true -> List.find f (l ++ [x]) = Some x.
Proof.
  induction l as [|y l IH]; cbn; intros Hl Hx.
  - rewrite Hx. reflexivity.
  - apply orb_false_iff in Hl as [Hy Hl]. rewrite Hy. apply IH; assumption.
Qed.

Lemma filter_all {A} (f : A -> bool) (l : list A) :
  existsb (fun x => negb (f x)) l = false -> List.filter f l = l.
Proof.
  induction l as [|y l IH]; cbn; intros Hl; [reflexivity|].
  apply orb_false_iff in Hl as [Hy Hl]. apply negb_false_iff in Hy.
  rewrite Hy, IH by assumption. reflexivity.
Qed.

Lemma filter_keep {A} (f : A -> bool) (l : list A) :
  existsb f l = false -> List.filter (fun x => negb (f x)) l = l.
Proof.
  induction l as [|y l IH]; cbn; intros Hl; [reflexivity|].
  apply orb_false_iff in Hl as [Hy Hl]. rewrite Hy, IH by assumption. reflexivity.
Qed.

Lemma filter_none {A} (f : A -> bool) (l : list A) :
  existsb f l = false -> List.filter f l = [].
Proof.
  induction l as [|y l IH]; cbn; intros Hl; [reflexivity|].
  apply orb_false_iff in Hl as [Hy Hl]. rewrite Hy. apply IH, Hl.
Qed.

Lemma existsb_filter_out {A} (f : A -> bool) (l : list A) :
  existsb f (List.filter (fun x => negb (f x)) l) = false.
Proof.
  induction l as [|y l IH]; cbn; [reflexivity|].
  destruct (f y) eqn:Hy; cbn; [exact IH|]. rewrite Hy, IH. reflexivity.
Qed.

Lemma find_none_existsb {A} (f : A -> bool) (l : list A) :
  existsb f l = false -> List.find f l = None.
Proof.
  induction l as [|y l IH]; cbn; intros Hl; [reflexivity|].
  apply orb_false_iff in Hl as [Hy Hl]. rewrite Hy. apply IH, Hl.
Qed.

Lemma existsb_has_id id (l : list CheckIn) :
  existsb (has_id id) l = false <-> ~ In id (map c_id l).
Proof.
  induction l as [|y l IH]; cbn; [tauto|].
  rewrite orb_false_iff, IH. unfold has_id. rewrite String.eqb_neq. tauto.
Qed.

(** Taking out the rows of one id takes out one row when ids are unique. *)
Lemma filter_out_one (f : CheckIn -> bool) id c (l : list CheckIn) :
  List.NoDup (map c_id l) -> List.find (has_id id) l = Some c ->
  length (List.filter f l)
  = (length (List.filter f (List.filter (fun x => negb (has_id id x)) l))
     + (if f c then 1 else 0))%nat.
Proof.
  induction l as [|y l IH]; cbn [map List.find List.filter]; intros Hnd Hf; [discriminate|].
  apply List.NoDup_cons_iff in Hnd as [Hy Hnd].
  destruct (has_id id y) eqn:Hid; cbn [negb].
  - injection Hf as <-. unfold has_id in Hid. apply String.eqb_eq in Hid. subst id.
    apply existsb_has_id in Hy. rewrite (filter_keep _ _ Hy).
    destruct (f y); cbn [length]; lia.
  - cbn [List.filter]. destruct (f y); cbn [length]; rewrite (IH Hnd Hf); lia.
Qed.

Lemma for_event_annotate ev n id (l : list CheckIn) :
  List.filter (for_event ev) (map (fun c => if has_id id c then annotate n c else c) l)
  = map (fun c => if has_id id c then annotate n c else c) (List.filter (for_event ev) l).
Proof.
  induction l as [|x l IH]; cbn [map List.filter]; [reflexivity|].
  replace (for_event ev (if has_id id x then annotate n x else x))
    with (for_event ev x) by (destruct (has_id id x); reflexivity).
  destruct (for_event ev x); cbn [map]; rewrite IH; reflexivity.
Qed.

Lemma ids_annotate n id (l : list CheckIn) :
  map c_id (map (fun c => if has_id id c then annotate n c else c) l) = map c_id l.
Proof.
  induction l as [|x l IH]; cbn [map]; [reflexivity|].
  rewrite IH. destruct (has_id id x); reflexivity.
Qed.

(** ** Every operation is one of the changes *)

Lemma handler_effect Date_parse o t :
  exists t', (run (handler Date_parse o) (idle t)).2 = idle t' /\ effect t t'.
Proof.
  destruct o as [w b | clock id | id n | id | clock id | id]; cbn [handler].
  - destruct (createCheckIn_cases Date_parse w b t)
      as [(aid & eid & a & e & Hr & _ & _ & Hf & Hc & Hk & _ & Hdb) | [_ Hdb]];
      cbn zeta in Hdb; rewrite Hdb; eexists; (split; [reflexivity|]).
    + destruct Hr as (_ & _ & _ & _ & Hat & Het). econstructor; eassumption.
    + constructor.
  - rewrite run_reverseCheckIn.
    destruct (List.find (has_id id) (checkins t)) as [c|] eqn:Hf;
      eexists; (split; [reflexivity|]); [constructor; exact Hf | constructor].
  - rewrite run_updateNotes. cbn zeta.
    destruct (List.find (has_id id) (checkins t)) as [c|];
      eexists; (split; [reflexivity|]); constructor.
  - rewrite run_deleteEvent.
    destruct (events t !! id); [destruct (count_for id t >? 0) eqn:Hc|];
      eexists; (split; [reflexivity|]); try constructor.
    unfold count_for in *. lia.
  - rewrite run_toggleEvent.
    destruct (events t !! id); eexists; (split; [reflexivity|]); constructor.
  - rewrite run_deleteAthlete.
    destruct (athletes t !! id); eexists; (split; [reflexivity|]); constructor.
Qed.

(** What every change keeps, every list of operations keeps. *)
Lemma after_keeps Date_parse (Inv : Tables -> Prop) :
  (forall t t', effect t t' -> Inv t -> Inv t') ->
  forall ops t, Inv t ->
    Inv (after Date_parse ops t) /\
    txn (run_all (map (handler Date_parse) ops) (idle t)).2 = None.
Proof.
  intros Hstep ops. unfold after.
  induction ops as [|o ops IH]; intros t Hi; [split; [exact Hi | reflexivity]|].
  cbn [map]. rewrite run_all_cons. cbn [snd].
  destruct (handler_effect Date_parse o t) as (t1 & -> & He).
  apply IH, (Hstep t t1 He Hi).
Qed.

(** ** Invariants of the tables *)

Lemma ids_filter (g : CheckIn -> bool) (l : list CheckIn) :
  List.NoDup (map c_id l) -> List.NoDup (map c_id (List.filter g l)).
Proof.
  induction l as [|x l IH]; cbn [map List.filter]; intros Hnd; [constructor|].
  apply List.NoDup_cons_iff in Hnd as [Hx Hnd].
  destruct (g x); cbn [map]; [|apply IH, Hnd].
  constructor; [|apply IH, Hnd].
  intros Hin. apply Hx. apply in_map_iff in Hin as (y & Hy & Hin).
  apply filter_In in Hin as [Hin _]. apply in_map_iff. eauto.
Qed.

Lemma ids_snoc (c : CheckIn) (l : list CheckIn) :
  existsb (has_id (c_id c)) l = false -> List.NoDup (map c_id l) ->
  List.NoDup (map c_id (l ++ [c])).
Proof.
  rewrite existsb_has_id, map_app. cbn [map]. intros Hk Hnd.
  apply List.NoDup_app; [exact Hnd | repeat constructor; intros [] |].
  intros a Ha [<- | []]. exact (Hk Ha).
Qed.

Lemma count_checked_in v w aid eid n t ev :
  count_for ev (checked_in v w aid eid n t)
  = count_for ev t + (if String.eqb eid ev then 1 else 0).
Proof.
  unfold count_for. cbn [checked_in checkins].
  rewrite List.filter_app, length_app. cbn [List.filter].
  unfold for_event at 2. cbn [new_row eventId].
  destruct (String.eqb eid ev); cbn [length]; lia.
Qed.

Lemma count_reversed clock id c t ev :
  unique_ids t -> List.find (has_id id) (checkins t) = Some c ->
  count_for ev (reversed clock id c t)
  = count_for ev t - (if String.eqb (eventId c) ev then 1 else 0).
Proof.
  intros Hu Hf. unfold count_for. cbn [reversed checkins].
  rewrite (filter_out_one (for_event ev) id c (checkins t) Hu Hf).
  unfold for_event at 3. destruct (String.eqb (eventId c) ev); lia.
Qed.

Lemma effect_keeps_ids t t' : effect t t' -> unique_ids t -> unique_ids t'.
Proof.
  unfold unique_ids. intros He Hu.
  destruct He as [| v w aid eid n a e _ _ _ _ Hk | clock id c _ | id n | id _ | b clock id | id];
    cbn [checked_in reversed checkins]; try assumption.
  - apply ids_snoc; assumption.
  - apply ids_filter, Hu.
  - rewrite ids_annotate. exact Hu.
Qed.

Lemma effect_keeps_counters t t' :
  effect t t' -> unique_ids t -> capacity_consistent t -> capacity_consistent t'.
Proof.
  intros He Hu Hc.
  destruct He as [| v w aid eid n a e _ Het _ _ _ | clock id c Hf | id n | id _ | b clock id | id];
    try assumption; intros i x Hi.
  - rewrite count_checked_in. cbn [checked_in events] in Hi.
    apply lookup_alter_Some in Hi as [(-> & y & Hy & ->) | (Hne & Hi)].
    + rewrite String.eqb_refl. cbn [bump currentCapacity]. rewrite (Hc _ _ Hy). reflexivity.
    + apply String.eqb_neq in Hne. rewrite Hne, (Hc _ _ Hi). lia.
  - rewrite (count_reversed clock id c t i Hu Hf). cbn [reversed events] in Hi.
    apply lookup_alter_Some in Hi as [(-> & y & Hy & ->) | (Hne & Hi)].
    + rewrite String.eqb_refl. cbn [bump currentCapacity]. rewrite (Hc _ _ Hy). lia.
    + apply String.eqb_neq in Hne. rewrite Hne, (Hc _ _ Hi). lia.
  - cbn [events] in Hi. unfold count_for. cbn [checkins].
    rewrite for_event_annotate, length_map. apply (Hc _ _ Hi).
  - cbn [events] in Hi. apply lookup_delete_Some in Hi as [_ Hi].
    unfold count_for. cbn [checkins]. apply (Hc _ _ Hi).
  - cbn [events] in Hi. unfold count_for. cbn [checkins].
    apply lookup_alter_Some in Hi as [(-> & y & Hy & ->) | (Hne & Hi)];
      [cbn [activate currentCapacity]|]; eapply Hc; eassumption.
Qed.

Lemma effect_keeps_events t t' : effect t t' -> no_orphans t -> no_orphans t'.
Proof.
  intros He Ho.
  destruct He as [| v w aid eid n a e _ Het _ _ _ | clock id c Hf | id n | id Hz | b clock id | id];
    try assumption; intros x Hin.
  - cbn [checked_in checkins events] in *. apply lookup_alter_is_Some.
    apply in_app_iff in Hin as [Hin | [<- | []]]; [apply Ho, Hin|].
    cbn [new_row eventId]. eauto.
  - cbn [reversed checkins events] in *. apply lookup_alter_is_Some.
    apply filter_In in Hin as [Hin _]. apply Ho, Hin.
  - cbn [checkins events] in *. apply in_map_iff in Hin as (y & <- & Hin).
    replace (eventId (if has_id id y then annotate n y else y)) with (eventId y)
      by (destruct (has_id id y); reflexivity).
    apply Ho, Hin.
  - cbn [checkins events] in *. destruct (decide (eventId x = id)) as [Heq|Hne].
    + exfalso. unfold count_for in Hz.
      assert (1 <= length (List.filter (for_event id) (checkins t)))%nat.
      { apply (filter_hit _ x); [exact Hin|]. unfold for_event.
        rewrite Heq. apply String.eqb_refl. }
      lia.
    + rewrite lookup_delete_ne by congruence. apply Ho, Hin.
  - cbn [checkins events] in *. apply lookup_alter_is_Some, Ho, Hin.
Qed.

Lemma effect_keeps_capacity t t' : effect t t' -> within_capacity t -> within_capacity t'.
Proof.
  intros He Hw.
  destruct He as [| v w aid eid n a e _ Het _ Hc _ | clock id c Hf | id n | id Hz | b clock id | id];
    try assumption; intros i x Hi; cbn [checked_in reversed events] in Hi.
  - apply lookup_alter_Some in Hi as [(Heq & y & Hy & ->) | (Hne & Hi)];
      [|apply (Hw _ _ Hi)].
    assert (y = e) by congruence. subst y. cbn [bump currentCapacity maxCapacity]. lia.
  - apply lookup_alter_Some in Hi as [(_ & y & Hy & ->) | (Hne & Hi)];
      [|apply (Hw _ _ Hi)].
    cbn [bump currentCapacity maxCapacity]. specialize (Hw _ _ Hy). lia.
  - apply lookup_delete_Some in Hi as [_ Hi]. apply (Hw _ _ Hi).
  - apply lookup_alter_Some in Hi as [(_ & y & Hy & ->) | (Hne & Hi)];
      [|apply (Hw _ _ Hi)].
    cbn [activate currentCapacity maxCapacity]. apply (Hw _ _ Hy).
Qed.

(** X1.  Operations that run one after the other keep the tables in step:
    no two check-in rows share an id, every event's counter equals the number
    of check-in rows of that event (so it is never negative), and every
    check-in row names an event that is on file. *)
Theorem store_invariants Date_parse ops t :
  unique_ids t -> capacity_consistent t -> no_orphans t ->
  let t' := after Date_parse ops t in
  unique_ids t' /\ capacity_consistent t' /\ no_orphans t' /\
  (forall id e, events t' !! id = Some e -> 0 <= currentCapacity e).
Proof.
  intros Hu Hc Ho t'.
  destruct (after_keeps Date_parse
              (fun t => unique_ids t /\ capacity_consistent t /\ no_orphans t))
    with (ops := ops) (t := t) as [(Hu' & Hc' & Ho') _].
  - intros x y He (H1 & H2 & H3). split; [|split].
    + apply (effect_keeps_ids x y He H1).
    + apply (effect_keeps_counters x y He H1 H2).
    + apply (effect_keeps_events x y He H3).
  - tauto.
  - fold t' in Hu', Hc', Ho'. repeat split; try assumption.
    intros id e He. rewrite (Hc' _ _ He). unfold count_for. lia.
Qed.

(** X2.  Whatever operations of the engine run one after the other (check-in,
    reversal, notes, event deletion, toggling, athlete deletion), no counter
    ends above the capacity of its event if none started above it. *)
Theorem capacity_kept Date_parse ops t :
  within_capacity t -> within_capacity (after Date_parse ops t).
Proof.
  intros Hw. apply (after_keeps Date_parse within_capacity); [|exact Hw].
  intros x y He. apply effect_keeps_capacity, He.
Qed.

(** ** POST /checkins: what is refused first, what is written *)

(** X3.  A check-in request without an athlete id or without an event id
    (absent or empty) is answered 400 "Athlete ID and Event ID are required"
    before any statement reaches the store.  A request naming an athlete who
    is not on file is answered 404 "Athlete not found" after one read,
    whatever the event; in both cases the tables are as before. *)
Theorem createCheckIn_rejects_early Date_parse w b t :
  (truthy (b_athleteId b) = false \/ truthy (b_eventId b) = false ->
     run (createCheckIn Date_parse w b) (idle t)
     = (json 400 (Error "Athlete ID and Event ID are required"), idle t) /\
     trace (createCheckIn Date_parse w b) (idle t) = []) /\
  (forall aid, b_athleteId b = Some aid -> truthy (Some aid) = true ->
     truthy (b_eventId b) = true -> athletes t !! aid = None ->
     run (createCheckIn Date_parse w b) (idle t)
     = (json 404 (Error "Athlete not found"), idle t) /\
     length (trace (createCheckIn Date_parse w b) (idle t)) = 1%nat).
Proof.
  split.
  - intros H. unfold createCheckIn.
    destruct (b_athleteId b) as [aid|]; [|split; reflexivity].
    destruct (b_eventId b) as [eid|]; [|split; reflexivity].
    destruct H as [H | H]; rewrite H; [|rewrite orb_true_r]; split; reflexivity.
  - intros aid Ha Hn1 Hn2 Hat. unfold createCheckIn. rewrite Ha.
    destruct (b_eventId b) as [eid|]; [|discriminate].
    rewrite Hn1, Hn2. cbn [negb orb]. start. rewrite Hat. split; reflexivity.
Qed.

(** X4.  A successful check-in appends exactly one row (id from uuidv4,
    checkInTime and createdAt from the same clock reading, the notes of the
    request, the waiver flag computed from the athlete's row), sets that
    athlete's lastVisited to the date part of checkInTime, adds one to that
    event's counter, and leaves every other athlete and event as it was. *)
Theorem createCheckIn_writes Date_parse w b t :
  let out := run (createCheckIn Date_parse w b) (idle t) in
  succeeded out.1 = true ->
  exists aid eid a e,
    reaches_event b t aid eid a e /\
    checkins (cur out.2)
    = (checkins t ++ [mkCheckIn (uuid w) aid eid (clock_checkin w)
                        (waiver_check Date_parse a (clock_now w)) (b_notes b)
                        (clock_checkin w)])%list /\
    athletes (cur out.2) !! aid
    = Some (mkAthlete (a_id a) (firstName a) (lastName a) (email a) (hasValidWaiver a)
              (waiverExpirationDate a) (Some (before_T (clock_checkin w)))
              (clock_checkin w)) /\
    events (cur out.2) !! eid
    = Some (mkEvent (e_id e) (name e) (date e) (maxCapacity e) (currentCapacity e + 1)
              (isActive e) (clock_checkin w)) /\
    (forall other, other <> aid -> athletes (cur out.2) !! other = athletes t !! other) /\
    (forall other, other <> eid -> events (cur out.2) !! other = events t !! other).
Proof.
  intros out Hok. subst out.
  destruct (createCheckIn_cases Date_parse w b t)
    as [(aid & eid & a & e & Hr & _ & _ & _ & _ & _ & _ & Hdb) | [Hno _]];
    [|cbn zeta in *; congruence].
  cbn zeta in Hdb. rewrite Hdb. exists aid, eid, a, e.
  pose proof Hr as (_ & _ & _ & _ & Hat & Het).
  cbn [idle cur checked_in checkins athletes events].
  split; [exact Hr|]. split; [reflexivity|].
  split; [rewrite lookup_alter_eq, Hat; reflexivity|].
  split; [rewrite lookup_alter_eq, Het; reflexivity|].
  split; intros other Hne; apply lookup_alter_ne; congruence.
Qed.

(** ** Check-in and reversal together *)

(** X5.  Reversing a check-in right after it was made gives back the list of
    check-in rows as it was and the counter, capacity, date, name and active
    flag of every event; only the time stamps of the event and the athlete's
    lastVisited keep the trace of the visit. *)
Theorem create_then_reverse Date_parse w b clock t :
  let first := run (createCheckIn Date_parse w b) (idle t) in
  let second := run (reverseCheckIn clock (uuid w)) first.2 in
  succeeded first.1 = true ->
  second.1 = json 200 (Message "Check-in deleted successfully") /\
  txn second.2 = None /\
  checkins (cur second.2) = checkins t /\
  (forall ev, events t !! ev = None -> events (cur second.2) !! ev = None) /\
  (forall ev e, events t !! ev = Some e ->
     exists e', events (cur second.2) !! ev = Some e' /\
       currentCapacity e' = currentCapacity e /\ maxCapacity e' = maxCapacity e /\
       date e' = date e /\ isActive e' = isActive e /\ name e' = name e).
Proof.
  intros first second Hok. subst second first.
  destruct (createCheckIn_cases Date_parse w b t)
    as [(aid & eid & a & e & Hr & _ & _ & _ & _ & Hk & _ & Hdb) | [Hno _]];
    [|cbn zeta in *; congruence].
  cbn zeta in Hdb. rewrite Hdb. rewrite run_reverseCheckIn.
  set (v := waiver_check Date_parse a (clock_now w)).
  assert (Hf : List.find (has_id (uuid w)) (checkins (checked_in v w aid eid (b_notes b) t))
               = Some (new_row v w aid eid (b_notes b))).
  { cbn [checked_in checkins]. apply find_app_last; [exact Hk|].
    unfold has_id, new_row. cbn [c_id]. apply String.eqb_refl. }
  rewrite Hf. cbn [fst snd idle cur txn reversed checked_in checkins events new_row eventId].
  split; [reflexivity|]. split; [reflexivity|]. split; [|split].
  - rewrite List.filter_app, (filter_keep _ _ Hk). cbn [List.filter].
    unfold has_id at 1. cbn [c_id]. rewrite String.eqb_refl. cbn [negb].
    apply app_nil_r.
  - intros ev Hev. rewrite !lookup_alter_None. exact Hev.
  - intros ev e0 Hev. destruct (decide (eid = ev)) as [->|Hne].
    + rewrite !lookup_alter_eq, Hev. eexists. split; [reflexivity|].
      cbn [bump currentCapacity maxCapacity date isActive name]. repeat split. lia.
    + rewrite !lookup_alter_ne by exact Hne. exists e0. repeat split. exact Hev.
Qed.

(** X6.  A second reversal of the same check-in, made after the first has
    ended, is answered 404 "Check-in not found" and changes nothing, so one
    after the other the counter is lowered at most once for an id; a
    reversal that finds no row sends no other statement than its lookup. *)
Theorem reverse_twice clock1 clock2 id t :
  let first := run (reverseCheckIn clock1 id) (idle t) in
  let second := run (reverseCheckIn clock2 id) first.2 in
  second.1 = json 404 (Error "Check-in not found") /\
  second.2 = first.2 /\
  (List.find (has_id id) (checkins t) = None ->
     first.1 = json 404 (Error "Check-in not found") /\ first.2 = idle t /\
     length (trace (reverseCheckIn clock1 id) (idle t)) = 1%nat).
Proof.
  cbn zeta. rewrite run_reverseCheckIn.
  destruct (List.find (has_id id) (checkins t)) as [c|] eqn:Hf; cbn [fst snd].
  - rewrite run_reverseCheckIn. cbn [reversed checkins].
    rewrite (find_none_existsb _ _ (existsb_filter_out (has_id id) (checkins t))).
    cbn [fst snd]. split; [reflexivity|]. split; [reflexivity|]. discriminate.
  - rewrite run_reverseCheckIn, Hf. cbn [fst snd].
    split; [reflexivity|]. split; [reflexivity|]. intros _.
    split; [reflexivity|]. split; [reflexivity|].
    unfold reverseCheckIn. start. rewrite Hf. reflexivity.
Qed.

(** ** PATCH /checkins/:id/notes *)

(** X7.  Updating notes touches nothing but the notes column: athletes and
    events are as before, the check-in rows are the same in number and order,
    each keeps its id, athlete, event, times and waiver flag, and its notes
    are replaced exactly when its id is the one asked for.  An id that is not
    on file is answered 404 "Check-in not found" with no write. *)
Theorem updateNotes_effect id n t :
  let out := run (updateNotes id n) (idle t) in
  athletes (cur out.2) = athletes t /\
  events (cur out.2) = events t /\
  txn out.2 = None /\
  length (checkins (cur out.2)) = length (checkins t) /\
  (forall i c, checkins t !! i = Some c ->
     checkins (cur out.2) !! i
     = Some (mkCheckIn (c_id c) (athleteId c) (eventId c) (checkInTime c)
               (waiverValidated c)
               (if has_id id c then n else notes c) (createdAt c))) /\
  (existsb (has_id id) (checkins t) = false ->
     out.1 = json 404 (Error "Check-in not found") /\ out.2 = idle t) /\
  (existsb (has_id id) (checkins t) = true -> status out.1 = 200).
Proof.
  cbn zeta. rewrite run_updateNotes. cbn zeta.
  destruct (List.find (has_id id) (checkins t)) as [c0|] eqn:Hf;
    cbn [fst snd idle cur txn athletes events checkins status].
  - split; [reflexivity|]. split; [reflexivity|]. split; [reflexivity|].
    split; [apply length_map|]. split; [|split].
    + intros i c Hi. rewrite list_lookup_fmap, Hi. cbn.
      destruct (has_id id c), c; reflexivity.
    + intros Hk. apply find_none_existsb in Hk. congruence.
    + reflexivity.
  - split; [reflexivity|]. split; [reflexivity|]. split; [reflexivity|].
    split; [reflexivity|]. split; [|split].
    + intros i c Hi. rewrite Hi. f_equal.
      assert (Hc : has_id id c = false).
      { apply (find_none _ _ Hf). apply list_elem_of_In, list_elem_of_lookup. eauto. }
      rewrite Hc. destruct c; reflexivity.
    + intros _. split; reflexivity.
    + intros Hk. apply find_existsb in Hk as [x Hx]. congruence.
Qed.

(** ** PATCH /events/:id/toggle *)

(** X8.  Toggling an event inverts its active flag and stamps it, and changes
    nothing else: counter, capacity, date and name of the event, every other
    event, the athletes and the check-in rows are as before.  Toggling it a
    second time gives back the flag it had. *)
Theorem toggleEvent_effect clock clock' id t e :
  events t !! id = Some e ->
  let out := run (toggleEvent clock id) (idle t) in
  let back := run (toggleEvent clock' id) out.2 in
  status out.1 = 200 /\
  events (cur out.2) !! id
  = Some (mkEvent (e_id e) (name e) (date e) (maxCapacity e) (currentCapacity e)
            (negb (isActive e)) clock) /\
  (forall other, other <> id -> events (cur out.2) !! other = events t !! other) /\
  athletes (cur out.2) = athletes t /\
  checkins (cur out.2) = checkins t /\
  events (cur back.2) !! id
  = Some (mkEvent (e_id e) (name e) (date e) (maxCapacity e) (currentCapacity e)
            (isActive e) clock').
Proof.
  intros He out back. subst back out. rewrite run_toggleEvent, He.
  cbn [fst snd idle cur status events athletes checkins].
  split; [reflexivity|].
  split; [rewrite lookup_alter_eq, He; reflexivity|].
  split; [intros other Hne; apply lookup_alter_ne; congruence|].
  split; [reflexivity|]. split; [reflexivity|].
  rewrite run_toggleEvent. cbn [events].
  rewrite lookup_alter_eq, He. cbn [fmap option_fmap option_map snd idle cur events].
  rewrite lookup_alter_eq, lookup_alter_eq, He. cbn.
  rewrite negb_involutive. reflexivity.
Qed.

(** X9.  Once an active event is toggled off, a check-in request that would
    have passed the athlete test is answered 404 "Event not found or
    inactive" and writes nothing, while the rows and the counter of the
    event stay as they were. *)
Theorem deactivated_event_refuses Date_parse clock w b t aid eid a e :
  reaches_event b t aid eid a e -> isActive e = true ->
  let off := run (toggleEvent clock eid) (idle t) in
  let try := run (createCheckIn Date_parse w b) off.2 in
  try.1 = json 404 (Error "Event not found or inactive") /\
  try.2 = off.2 /\
  count_for eid (cur try.2) = count_for eid t /\
  (currentCapacity <$> events (cur try.2) !! eid) = Some (currentCapacity e).
Proof.
  intros Hr Hact off try. subst try off.
  destruct Hr as (Hb1 & Hb2 & Hn1 & Hn2 & Hat & Het).
  rewrite run_toggleEvent, Het. cbn [snd].
  set (t1 := mkTables _ _ _).
  assert (Hr1 : reaches_event b t1 aid eid a (activate (negb (isActive e)) clock e)).
  { repeat split; try assumption. unfold t1. cbn [events].
    rewrite lookup_alter_eq, Het. reflexivity. }
  rewrite (create_inactive Date_parse w b t1 aid eid a _ Hr1)
    by (cbn [activate isActive]; rewrite Hact; reflexivity).
  cbn [fst snd idle cur]. split; [reflexivity|]. split; [reflexivity|].
  split; [reflexivity|]. unfold t1. cbn [events].
  rewrite lookup_alter_eq, Het. reflexivity.
Qed.

(** ** The three listings of events *)

Lemma ltb_irrefl (s : string) : String.ltb s s = false.
Proof.
  unfold String.ltb. pose proof (String.compare_antisym s s) as H.
  destruct (String.compare s s); cbn in H; congruence.
Qed.

Lemma ltb_asym (a b : string) : String.ltb a b = true -> String.ltb b a = false.
Proof.
  unfold String.ltb. rewrite (String.compare_antisym a b).
  destruct (String.compare b a); cbn; congruence.
Qed.

Lemma ltb_total (a b : string) :
  String.ltb a b = false -> String.ltb b a = false -> a = b.
Proof.
  unfold String.ltb. rewrite (String.compare_antisym a b). intros H1 H2.
  symmetry. apply String.compare_eq_iff.
  destruct (String.compare b a); cbn in *; congruence.
Qed.

(** X10.  The conditions by which the listings of today's, disabled and
    past events select their rows exclude one another, and an event meets
    none of the three exactly when it is active and dated after today. *)
Theorem listings_partition today e :
  (listed_today today e = true ->
     listed_disabled today e = false /\ listed_past today e = false) /\
  (listed_disabled today e = true -> listed_past today e = false) /\
  (listed_today today e = false /\ listed_disabled today e = false /\
   listed_past today e = false
   <-> isActive e = true /\ String.ltb today (date e) = true).
Proof.
  unfold listed_today, listed_disabled, listed_past. rewrite leb_ltb.
  split; [|split].
  - intros H. apply andb_true_iff in H as [Hd Ha]. apply String.eqb_eq in Hd.
    rewrite Hd, Ha, ltb_irrefl. split; reflexivity.
  - intros H. apply andb_true_iff in H as [Hd _]. apply negb_true_iff in Hd. exact Hd.
  - split.
    + intros (H1 & H2 & H3). rewrite H3 in H2. cbn in H2.
      apply negb_false_iff in H2. split; [exact H2|].
      rewrite H2, andb_true_r in H1. apply String.eqb_neq in H1.
      destruct (String.ltb today (date e)) eqn:Hlt; [reflexivity|].
      exfalso. apply H1. apply ltb_total; assumption.
    + intros [Ha Hlt]. rewrite Ha, (ltb_asym _ _ Hlt). cbn.
      split; [|split; reflexivity]. rewrite andb_true_r. apply String.eqb_neq.
      intros Heq. rewrite Heq, ltb_irrefl in Hlt. discriminate.
Qed.

(** ** Check-ins of a deleted athlete *)

Lemma filter_one id c (l : list CheckIn) :
  List.NoDup (map c_id l) -> List.find (has_id id) l = Some c ->
  List.filter (has_id id) l = [c].
Proof.
  induction l as [|y l IH]; cbn [map List.find List.filter]; intros Hnd Hf; [discriminate|].
  apply List.NoDup_cons_iff in Hnd as [Hy Hnd].
  destruct (has_id id y) eqn:Hid.
  - injection Hf as <-. unfold has_id in Hid. apply String.eqb_eq in Hid. subst id.
    apply existsb_has_id in Hy. rewrite (filter_none _ _ Hy). reflexivity.
  - apply IH; assumption.
Qed.

Lemma has_id_annotate id n id' (l : list CheckIn) :
  List.filter (has_id id') (map (fun c => if has_id id c then annotate n c else c) l)
  = map (fun c => if has_id id c then annotate n c else c) (List.filter (has_id id') l).
Proof.
  induction l as [|x l IH]; cbn [map List.filter]; [reflexivity|].
  replace (has_id id' (if has_id id x then annotate n x else x))
    with (has_id id' x) by (destruct (has_id id x); reflexivity).
  destruct (has_id id' x); cbn [map]; rewrite IH; reflexivity.
Qed.

(** X11.  After an athlete is deleted, a check-in request for that athlete
    is answered 404 "Athlete not found".  The athlete's check-in rows stay on
    file: a note can still be stored on such a row, and the answer is a 200
    whose check-in is empty, because the row no longer joins to an athlete. *)
Theorem deleted_athlete Date_parse id t a :
  athletes t !! id = Some a ->
  let gone := run (deleteAthlete id) (idle t) in
  status gone.1 = 200 /\
  (forall w b, b_athleteId b = Some id -> truthy (Some id) = true ->
     truthy (b_eventId b) = true ->
     run (createCheckIn Date_parse w b) gone.2
     = (json 404 (Error "Athlete not found"), gone.2)) /\
  (forall cid n c, unique_ids t ->
     List.find (has_id cid) (checkins t) = Some c -> athleteId c = id ->
     let noted := run (updateNotes cid n) gone.2 in
     noted.1 = json 200 (CheckinUpdated None "Notes updated successfully") /\
     In (annotate n c) (checkins (cur noted.2))).
Proof.
  intros Ha gone. subst gone. rewrite run_deleteAthlete, Ha. cbn [fst snd status].
  split; [reflexivity|]. split.
  - intros w b Hb Hn1 Hn2. unfold createCheckIn. rewrite Hb.
    destruct (b_eventId b) as [eid|]; [|discriminate].
    rewrite Hn1, Hn2. cbn [negb orb]. start. cbn [athletes].
    rewrite lookup_delete_eq. reflexivity.
  - intros cid n c Hu Hf Hc. rewrite run_updateNotes. cbn zeta.
    cbn [checkins athletes events]. rewrite Hf. cbn [fst snd idle cur checkins].
    pose proof (find_some _ _ Hf) as [Hin Hid]. split.
    + rewrite has_id_annotate, (filter_one cid c (checkins t) Hu Hf).
      cbn [map omap list_omap]. rewrite Hid.
      unfold join_row. cbn [annotate athleteId athletes].
      rewrite Hc, lookup_delete_eq. reflexivity.
    + apply in_map_iff. exists c. rewrite Hid. split; [reflexivity | exact Hin].
Qed.

(** ** Ordered lists of rows *)

Lemma insert_desc_perm {A} (key : A -> string) (x : A) (l : list A) :
  Permutation (insert_desc key x l) (x :: l).
Proof.
  induction l as [|y l IH]; cbn [insert_desc]; [reflexivity|].
  destruct (String.ltb (key x) (key y)); [|reflexivity].
  rewrite IH. apply perm_swap.
Qed.

Lemma order_desc_perm {A} (key : A -> string) (l : list A) :
  Permutation (order_desc key l) l.
Proof.
  induction l as [|x l IH]; cbn [order_desc fold_right]; [reflexivity|].
  fold (order_desc key l). rewrite insert_desc_perm, IH. reflexivity.
Qed.

Lemma insert_desc_sorted {A} (key : A -> string) (x : A) (l : list A) :
  Sorted (falling key) l -> Sorted (falling key) (insert_desc key x l).
Proof.
  induction l as [|y l IH]; cbn [insert_desc]; intros Hs; [repeat constructor|].
  destruct (String.ltb (key x) (key y)) eqn:Hlt.
  - apply Sorted_inv in Hs as [Hs Hd]. constructor; [apply IH, Hs|].
    destruct l as [|z l]; cbn [insert_desc].
    + constructor. unfold falling. rewrite leb_ltb, (ltb_asym _ _ Hlt). reflexivity.
    + destruct (String.ltb (key x) (key z)).
      * constructor. apply HdRel_inv in Hd. exact Hd.
      * constructor. unfold falling. rewrite leb_ltb, (ltb_asym _ _ Hlt). reflexivity.
  - constructor; [exact Hs|]. constructor. unfold falling. rewrite leb_ltb, Hlt. reflexivity.
Qed.

Lemma order_desc_sorted {A} (key : A -> string) (l : list A) :
  Sorted (falling key) (order_desc key l).
Proof.
  induction l as [|x l IH]; cbn [order_desc fold_right]; [constructor|].
  apply insert_desc_sorted, IH.
Qed.

Lemma in_order_desc {A} (key : A -> string) (l : list A) (x : A) :
  In x (order_desc key l) <-> In x l.
Proof.
  split; apply Permutation_in; [|symmetry]; apply order_desc_perm.
Qed.

Lemma in_omap {A B} (f : A -> option B) (l : list A) (y : B) :
  In y (omap f l) <-> exists x, In x l /\ f x = Some y.
Proof.
  rewrite <- list_elem_of_In, list_elem_of_omap.
  split; intros (x & H1 & H2); exists x; split; try assumption;
    apply list_elem_of_In; assumption.
Qed.

Lemma omap_length_le {A B} (f : A -> option B) (l : list A) :
  (length (omap f l) <= length l)%nat.
Proof.
  induction l as [|x l IH]; cbn; [lia|]. destruct (f x); cbn; lia.
Qed.

Lemma omap_length_all {A B} (f : A -> option B) (l : list A) :
  (forall x, In x l -> is_Some (f x)) -> length (omap f l) = length l.
Proof.
  induction l as [|x l IH]; cbn; intros H; [reflexivity|].
  destruct (H x (or_introl eq_refl)) as [y ->]. cbn. rewrite IH; [reflexivity|].
  intros z Hz. apply H. right. exact Hz.
Qed.

Lemma omap_length_miss {A B} (f : A -> option B) (l : list A) (x : A) :
  In x l -> f x = None -> (length (omap f l) < length l)%nat.
Proof.
  induction l as [|y l IH]; cbn; intros Hin Hx; [destruct Hin|].
  destruct Hin as [-> | Hin].
  - rewrite Hx. pose proof (omap_length_le f l). lia.
  - specialize (IH Hin Hx). destruct (f y); cbn; lia.
Qed.

Lemma filter_split {A} (p q : A -> bool) (l : list A) :
  length (List.filter p l)
  = (length (List.filter (fun x => p x && q x) l)
     + length (List.filter (fun x => p x && negb (q x)) l))%nat.
Proof.
  induction l as [|x l IH]; cbn; [reflexivity|].
  destruct (p x), (q x); cbn; lia.
Qed.

Lemma filter_length_mono {A} (p q : A -> bool) (l : list A) :
  (forall x, p x = true -> q x = true) ->
  (length (List.filter p l) <= length (List.filter q l))%nat.
Proof.
  intros H. induction l as [|x l IH]; cbn; [lia|].
  destruct (p x) eqn:Hp; [rewrite (H x Hp); cbn; lia|].
  destruct (q x); cbn; lia.
Qed.

(** ** GET /checkins/event/:eventId *)

(** X12.  The list of an event's check-ins comes by falling check-in time
    and holds exactly the rows of that event whose athlete is on file.  It is
    never longer than the number of rows of the event, as long when every
    athlete is on file, and shorter as soon as one row belongs to an athlete
    who is not. *)
Theorem eventCheckins_listing ev t :
  Sorted (falling (fun r : CheckIn * Athlete => checkInTime r.1)) (eventCheckins ev t) /\
  (forall c a, In (c, a) (eventCheckins ev t) <->
     In c (checkins t) /\ eventId c = ev /\ athletes t !! athleteId c = Some a) /\
  Z.of_nat (length (eventCheckins ev t)) <= count_for ev t /\
  ((forall c, In c (checkins t) -> eventId c = ev -> is_Some (athletes t !! athleteId c)) ->
     Z.of_nat (length (eventCheckins ev t)) = count_for ev t) /\
  (forall c, In c (checkins t) -> eventId c = ev -> athletes t !! athleteId c = None ->
     Z.of_nat (length (eventCheckins ev t)) < count_for ev t).
Proof.
  unfold eventCheckins, count_for.
  split; [apply order_desc_sorted|]. split; [|split; [|split]].
  - intros c a. rewrite in_order_desc, in_omap. split.
    + intros (x & Hin & Hx). apply filter_In in Hin as [Hin Hev].
      unfold with_athlete in Hx. destruct (athletes t !! athleteId x) eqn:Ha; [|discriminate].
      injection Hx as <- <-. apply String.eqb_eq in Hev. auto.
    + intros (Hin & Hev & Ha). exists c. split.
      * apply filter_In. split; [exact Hin|]. apply String.eqb_eq, Hev.
      * unfold with_athlete. rewrite Ha. reflexivity.
  - rewrite (Permutation_length (order_desc_perm _ _)).
    pose proof (omap_length_le (with_athlete t) (List.filter (for_event ev) (checkins t))).
    lia.
  - intros H. rewrite (Permutation_length (order_desc_perm _ _)).
    rewrite omap_length_all; [reflexivity|].
    intros x Hin. apply filter_In in Hin as [Hin Hev]. apply String.eqb_eq in Hev.
    destruct (H x Hin Hev) as [a Ha]. unfold with_athlete. rewrite Ha. eauto.
  - intros c Hin Hev Ha. rewrite (Permutation_length (order_desc_perm _ _)).
    assert (length (omap (with_athlete t) (List.filter (for_event ev) (checkins t)))
            < length (List.filter (for_event ev) (checkins t)))%nat; [|lia].
    apply (omap_length_miss _ _ c).
    + apply filter_In. split; [exact Hin|]. apply String.eqb_eq, Hev.
    + unfold with_athlete. rewrite Ha. reflexivity.
Qed.

(** ** GET /events/:id/stats *)


(** ** GET /checkins/stats *)

(** X14.  In the check-in statistics the total is the number of rows, the
    validated and not validated counts add up to it, and neither today's nor
    this week's count exceeds it; today's count is at most this week's as
    soon as the day a week ago is not after today. *)
Theorem checkinStats_counts sql_date clock clock_week t :
  let s := checkinStats sql_date clock clock_week t in
  stats_total s = Z.of_nat (length (checkins t)) /\
  stats_total s = stats_valid s + stats_invalid s /\
  0 <= stats_today s <= stats_total s /\
  0 <= stats_thisWeek s <= stats_total s /\
  (String.leb (before_T clock_week) (before_T clock) = true ->
     stats_today s <= stats_thisWeek s).
Proof.
  cbn zeta. unfold checkinStats, count_where.
  cbn [stats_today stats_thisWeek stats_total stats_valid stats_invalid].
  assert (Hall : List.filter (fun _ : CheckIn => true) (checkins t) = checkins t).
  { induction (checkins t) as [|x l IH]; cbn; [reflexivity|]. rewrite IH. reflexivity. }
  rewrite Hall. split; [reflexivity|]. split; [|split; [|split]].
  - pose proof (filter_split (fun _ => true) waiverValidated (checkins t)) as H.
    rewrite Hall in H.
    change (length (checkins t)
            = (length (List.filter waiverValidated (checkins t))
               + length (List.filter (fun c => negb (waiverValidated c)) (checkins t)))%nat)
      in H.
    lia.
  - pose proof (filter_length_mono (date_is sql_date (before_T clock)) (fun _ => true)
                  (checkins t) (fun _ _ => eq_refl)) as H.
    rewrite Hall in H. lia.
  - pose proof (filter_length_mono (date_from sql_date (before_T clock_week))
                  (fun _ => true) (checkins t) (fun _ _ => eq_refl)) as H.
    rewrite Hall in H. lia.
  - intros Hle.
    assert (H : (length (List.filter (date_is sql_date (before_T clock)) (checkins t))
                 <= length (List.filter (date_from sql_date (before_T clock_week))
                              (checkins t)))%nat); [|lia].
    apply filter_length_mono. intros c. unfold date_is, date_from.
    destruct (sql_date (checkInTime c)) as [d|]; [|discriminate].
    intros Hd. apply String.eqb_eq in Hd. subst d. exact Hle.
Qed.

(** ** GET /checkins/export *)

(** X15.  The export comes by falling check-in time and holds exactly the
    rows that pass the filters and whose athlete and event are on file.  A
    filter that is absent or empty selects everything; the filters that are
    given must all hold; and giving an event on top of the other filters
    never adds a row. *)
Theorem exportCheckins_rows sql_date q t :
  Sorted (falling (fun r : CheckIn * Athlete * Event => checkInTime r.1.1))
         (exportCheckins sql_date q t) /\
  (forall c a e, In (c, a, e) (exportCheckins sql_date q t) <->
     In c (checkins t) /\ athletes t !! athleteId c = Some a /\
     events t !! eventId c = Some e /\ export_where sql_date q c = true) /\
  (truthy (startDate q) = false -> truthy (endDate q) = false ->
     truthy (f_eventId q) = false -> forall c, export_where sql_date q c = true) /\
  (forall from to ev c,
     truthy (Some from) = true -> truthy (Some to) = true -> truthy (Some ev) = true ->
     export_where sql_date (mkFilters (Some from) (Some to) (Some ev)) c
     = date_from sql_date from c && date_until sql_date to c && for_event ev c) /\
  (forall ev r,
     In r (exportCheckins sql_date (mkFilters (startDate q) (endDate q) (Some ev)) t) ->
     In r (exportCheckins sql_date (mkFilters (startDate q) (endDate q) None) t)).
Proof.
  assert (Hin : forall q c a e, In (c, a, e) (exportCheckins sql_date q t) <->
     In c (checkins t) /\ athletes t !! athleteId c = Some a /\
     events t !! eventId c = Some e /\ export_where sql_date q c = true).
  { intros q' c a e. unfold exportCheckins. rewrite in_order_desc, in_omap. split.
    - intros (x & Hx & Hb). apply filter_In in Hx as [Hx Hw].
      unfold with_both in Hb.
      destruct (athletes t !! athleteId x) eqn:Ha; [|discriminate].
      destruct (events t !! eventId x) eqn:He; [|discriminate].
      injection Hb as <- <- <-. auto.
    - intros (Hx & Ha & He & Hw). exists c. split; [apply filter_In; auto|].
      unfold with_both. rewrite Ha, He. reflexivity. }
  split; [apply order_desc_sorted|]. split; [apply Hin|]. split; [|split].
  - intros H1 H2 H3 c. unfold export_where.
    destruct (startDate q) as [d1|]; [rewrite H1|];
      (destruct (endDate q) as [d2|]; [rewrite H2|]);
      (destruct (f_eventId q) as [ev|]; [rewrite H3|]); reflexivity.
  - intros from to ev c H1 H2 H3. unfold export_where.
    cbn [startDate endDate f_eventId]. rewrite H1, H2, H3. reflexivity.
  - intros ev [[c a] e] Hr. apply Hin in Hr as (Hc & Ha & He & Hw). apply Hin.
    repeat split; try assumption.
    unfold export_where in *. cbn [startDate endDate f_eventId] in *.
    apply andb_true_iff in Hw as [Hw _]. rewrite Hw. reflexivity.
Qed.

(** ** POST /events *)

Ltac refuse :=
  cbn [fst snd negb orb];
  repeat match goal with |- _ /\ _ => split end;
  intros; unfold succeeded in *; cbn [status] in *;
  first [ reflexivity | discriminate | (split; assumption) | assumption
        | (simplify_eq; first [reflexivity | lia | congruence]) ].

(** X16.  Creating an event either refuses and writes nothing, or puts on
    file one event with the id drawn, the name, date and capacity of the
    request, a counter of 0 and the active flag set, leaving every other row
    alone.  A capacity of 0 is reported as a missing field, a negative one as
    "Max capacity must be greater than 0".  Tables whose counters agree with
    their rows, whose rows all name an event on file and whose counters are
    within capacity stay so. *)
Theorem createEvent_effect clock id b t :
  let out := createEvent clock id b t in
  (succeeded out.1 = false -> out.2 = t) /\
  (no_number (eb_maxCapacity b) = true ->
     out = (json 400 (Error "All required fields must be provided"), t)) /\
  (forall n, eb_maxCapacity b = Some n -> n < 0 ->
     truthy (eb_name b) = true -> truthy (eb_date b) = true ->
     truthy (eb_startTime b) = true -> truthy (eb_endTime b) = true ->
     out = (json 400 (Error "Max capacity must be greater than 0"), t)) /\
  (succeeded out.1 = true ->
     exists name date cap,
       eb_name b = Some name /\ eb_date b = Some date /\
       eb_maxCapacity b = Some cap /\ 0 < cap /\
       events t !! id = None /\
       events out.2 !! id = Some (mkEvent id name date cap 0 true clock) /\
       (forall other, other <> id -> events out.2 !! other = events t !! other) /\
       athletes out.2 = athletes t /\ checkins out.2 = checkins t) /\
  (no_orphans t -> capacity_consistent t ->
     capacity_consistent out.2 /\ no_orphans out.2) /\
  (within_capacity t -> within_capacity out.2).
Proof.
  cbn zeta. unfold createEvent.
  destruct (eb_name b) as [name|] eqn:Hn; [|refuse].
  destruct (eb_date b) as [date|] eqn:Hd; [|rewrite orb_true_r; refuse].
  destruct (truthy (Some name)) eqn:Tn; [|refuse].
  destruct (truthy (Some date)) eqn:Td; [|refuse].
  destruct (truthy (eb_startTime b)) eqn:Ts; [|refuse].
  destruct (truthy (eb_endTime b)) eqn:Te; [|refuse].
  cbn [negb orb].
  destruct (eb_maxCapacity b) as [cap|] eqn:Hc; [|refuse].
  cbn [no_number].
  destruct (cap =? 0) eqn:Hz; [refuse|].
  destruct (cap <=? 0) eqn:Hle.
  - refuse.
  - assert (Hpos : 0 < cap) by lia. clear Hz Hle.
    destruct (events t !! id) as [old|] eqn:Hid.
    + refuse.
    + cbn [fst snd]. split; [discriminate|]. split; [discriminate|].
      split; [intros n [= <-]; lia|]. split; [|split].
      * intros _. exists name, date, cap. cbn [events athletes checkins].
        repeat split; try reflexivity; try assumption.
        -- apply lookup_insert_eq.
        -- intros other Hne. apply lookup_insert_ne. congruence.
      * intros Ho Hcons. split.
        -- intros i e Hi. cbn [events] in Hi. unfold count_for. cbn [checkins].
           apply lookup_insert_Some in Hi as [[<- <-] | [_ Hi]]; [|apply (Hcons _ _ Hi)].
           cbn [currentCapacity].
           rewrite filter_none; [reflexivity|].
           apply not_true_is_false. intros Hex.
           apply existsb_exists in Hex as (c & Hin & Hev).
           apply String.eqb_eq in Hev. destruct (Ho c Hin) as [x Hx]. congruence.
        -- intros c Hin. cbn [events checkins] in *. apply lookup_insert_is_Some.
           destruct (decide (id = eventId c)); [left; assumption | right].
           split; [assumption | apply Ho, Hin].
      * intros Hw i e Hi. cbn [events] in Hi.
        apply lookup_insert_Some in Hi as [[_ <-] | [_ Hi]]; [|apply (Hw _ _ Hi)].
        cbn [currentCapacity maxCapacity]. lia.
Qed.

(** ** PUT /events/:id *)

(** X17.  Updating an event that is on file writes the fields the request
    holds and keeps the others; it never writes the id or the counter, takes
    any capacity as sent, and leaves every other event, the athletes and the
    check-in rows alone, so the counters keep agreeing with the rows.  An
    event that is not on file is answered 404 "Event not found". *)
Theorem updateEvent_effect clock id b t :
  let out := updateEvent clock id b t in
  (events t !! id = None -> out = (json 404 (Error "Event not found"), t)) /\
  (forall e, events t !! id = Some e ->
     status out.1 = 200 /\
     exists e', events out.2 !! id = Some e' /\
       e_id e' = e_id e /\ currentCapacity e' = currentCapacity e /\
       name e' = (if eb_name b is Some x then x else name e) /\
       date e' = (if eb_date b is Some x then x else date e) /\
       maxCapacity e' = (if eb_maxCapacity b is Some x then x else maxCapacity e) /\
       isActive e' = (if eb_isActive b is Some x then x else isActive e)) /\
  (forall other, other <> id -> events out.2 !! other = events t !! other) /\
  athletes out.2 = athletes t /\ checkins out.2 = checkins t /\
  (capacity_consistent t -> capacity_consistent out.2) /\
  (no_orphans t -> no_orphans out.2).
Proof.
  cbn zeta. unfold updateEvent.
  destruct (events t !! id) as [e0|] eqn:He; cbn [fst snd status events athletes checkins].
  - split; [discriminate|]. split; [|split; [|split; [|split; [|split]]]].
    + intros e [= <-]. split; [reflexivity|]. exists (revise b clock e0).
      rewrite lookup_alter_eq, He. repeat split.
    + intros other Hne. apply lookup_alter_ne. congruence.
    + reflexivity.
    + reflexivity.
    + intros Hc i x Hi. cbn [events] in Hi. unfold count_for. cbn [checkins].
      apply lookup_alter_Some in Hi as [(_ & y & Hy & ->) | (_ & Hi)];
        [cbn [revise currentCapacity]|]; eapply Hc; eassumption.
    + intros Ho c Hin. cbn [events checkins] in *. apply lookup_alter_is_Some, Ho, Hin.
  - refuse.
Qed.

(** X18.  When an update sets the capacity of an event to its counter or
    below, the next check-in request for it, from an athlete on file with no
    check-in for it, is answered 400 "Event is at full capacity" as long as
    the event is still active and not past, and writes nothing. *)
Theorem lowered_capacity_refuses Date_parse clock eb w b t aid eid a e m :
  reaches_event b t aid eid a e ->
  eb_maxCapacity eb = Some m -> m <= currentCapacity e ->
  coalesce (eb_isActive eb) (isActive e) = true ->
  str_lt (coalesce (eb_date eb) (date e)) (before_T (clock_today w)) = false ->
  existsb (for_pair aid eid) (checkins t) = false ->
  let changed := updateEvent clock eid eb t in
  run (createCheckIn Date_parse w b) (idle changed.2)
  = (json 400 (Error "Event is at full capacity"), idle changed.2).
Proof.
  intros Hr Hm Hle Hact Hp Hd changed. subst changed.
  destruct Hr as (Hb1 & Hb2 & Hn1 & Hn2 & Hat & Het).
  unfold updateEvent. rewrite Het. cbn [snd].
  set (t1 := mkTables _ _ _).
  apply (create_full Date_parse w b t1 aid eid a (revise eb clock e)).
  - repeat split; try assumption. unfold t1. cbn [events].
    rewrite lookup_alter_eq, Het. reflexivity.
  - exact Hact.
  - exact Hp.
  - apply find_none_existsb. exact Hd.
  - cbn [revise currentCapacity maxCapacity]. rewrite Hm. cbn [coalesce]. lia.
Qed.

(** ** PATCH /athletes/:id/waiver *)

(** X19.  A waiver update overwrites the athlete's flag and expiration date
    with what the request holds (nothing sent clears them) and touches no
    check-in row, no event and no other athlete.  Rows on file keep the flag
    they were given; a check-in made afterwards is flagged from the new
    values alone: the flag sent, and the date sent being absent, empty or
    later than the clock. *)
Theorem waiver_update_then_checkin Date_parse clock id wb t a :
  athletes t !! id = Some a ->
  let changed := updateWaiver clock id wb t in
  checkins changed.2 = checkins t /\
  events changed.2 = events t /\
  (forall other, other <> id -> athletes changed.2 !! other = athletes t !! other) /\
  (forall w b, b_athleteId b = Some id ->
     let out := run (createCheckIn Date_parse w b) (idle changed.2) in
     succeeded out.1 = true ->
     let flag :=
       coalesce (wb_hasValidWaiver wb) false &&
       (negb (truthy (wb_waiverExpirationDate wb))
        || date_gt (Date_parse (coalesce (wb_waiverExpirationDate wb) "")) (clock_now w)) in
     (exists view msg, out.1 = json 201 (CheckinCreated view flag msg)) /\
     (exists eid, checkins (cur out.2)
                  = (checkins t ++ [new_row flag w id eid (b_notes b)])%list)).
Proof.
  intros Ha changed. subst changed. unfold updateWaiver. rewrite Ha.
  cbn [snd checkins events athletes].
  split; [reflexivity|]. split; [reflexivity|].
  split; [intros other Hne; apply lookup_alter_ne; congruence|].
  intros w b Hb Hok. set (t1 := mkTables _ _ _) in *.
  destruct (createCheckIn_cases Date_parse w b t1)
    as [(aid & eid & a1 & e & Hr & Hact & Hp & Hf & Hc & Hk & _) | [Hno _]];
    [|cbn zeta in *; congruence].
  pose proof Hr as (Hb1 & _ & _ & _ & Hat & _).
  assert (aid = id) by congruence. subst aid.
  assert (a1 = sign wb clock a).
  { unfold t1 in Hat. cbn [athletes] in Hat. rewrite lookup_alter_eq, Ha in Hat.
    cbn in Hat. congruence. }
  subst a1.
  assert (Hflag : waiver_check Date_parse (sign wb clock a) (clock_now w)
                  = coalesce (wb_hasValidWaiver wb) false &&
                    (negb (truthy (wb_waiverExpirationDate wb))
                     || date_gt (Date_parse (coalesce (wb_waiverExpirationDate wb) ""))
                          (clock_now w))).
  { unfold waiver_check, sign. cbn [hasValidWaiver waiverExpirationDate].
    destruct (coalesce (wb_hasValidWaiver wb) false); [|reflexivity].
    destruct (wb_waiverExpirationDate wb) as [s|]; [|reflexivity].
    cbn [coalesce andb]. destruct (truthy (Some s)); reflexivity. }
  cbn zeta.
  rewrite (create_ok Date_parse w b t1 id eid _ e Hr Hact Hp Hf Hc Hk).
  cbn [fst snd idle cur checked_in checkins]. rewrite Hflag. split; eauto.
Qed.

(** ** POST /athletes and PUT /athletes/:id *)

Lemma email_free e (m : gmap string Athlete) :
  email_taken e m = false ->
  forall i a, m !! i = Some a -> email a <> Some e.
Proof.
  unfold email_taken. intros H i a Hi He.
  apply bool_decide_eq_false in H. apply H. exists i, a. split; assumption.
Qed.

(** X20.  Creating and updating athletes, one call after the other, never
    brings two athletes to share an email that is not empty. *)
Theorem athlete_emails_stay_unique clock id b t :
  unique_emails t ->
  unique_emails (createAthlete clock id b t).2 /\
  unique_emails (updateAthlete clock id b t).2.
Proof.
  intros Hu. split.
  - unfold createAthlete.
    destruct (negb (truthy (ab_firstName b)) || negb (truthy (ab_lastName b))
              || negb (truthy (ab_dateOfBirth b)) || negb (truthy (ab_emergencyContact b))
              || negb (truthy (ab_emergencyPhone b))); [exact Hu|].
    destruct (ab_firstName b) as [first|]; [|exact Hu].
    destruct (ab_lastName b) as [last|]; [|exact Hu].
    destruct (truthy (ab_email b) && email_taken (coalesce (ab_email b) "") (athletes t))
      eqn:Htaken; [exact Hu|].
    destruct (athletes t !! id) as [old|] eqn:Hid; [exact Hu|].
    cbn [snd]. intros i j x y e Hi Hj Hx Hy He. cbn [athletes] in Hi, Hj.
    assert (Hfree : ab_email b = Some e ->
                    forall k z, athletes t !! k = Some z -> email z <> Some e).
    { intros Hb. rewrite Hb, He in Htaken. cbn [andb coalesce] in Htaken.
      apply email_free, Htaken. }
    apply lookup_insert_Some in Hi as [[<- <-] | [Hni Hi]];
      apply lookup_insert_Some in Hj as [[<- <-] | [Hnj Hj]].
    + reflexivity.
    + cbn [email] in Hx. exfalso. exact (Hfree Hx j y Hj Hy).
    + cbn [email] in Hy. exfalso. exact (Hfree Hy i x Hi Hx).
    + exact (Hu i j x y e Hi Hj Hx Hy He).
  - unfold updateAthlete.
    destruct (athletes t !! id) as [old|] eqn:Hid; [|exact Hu].
    destruct (truthy (ab_email b)
              && email_taken (coalesce (ab_email b) "") (delete id (athletes t)))
      eqn:Htaken; [exact Hu|].
    cbn [snd]. intros i j x y e Hi Hj Hx Hy He. cbn [athletes] in Hi, Hj.
    assert (Hother : forall k z, k <> id -> athletes t !! k = Some z ->
                       email (amend b clock old) = Some e -> email z <> Some e).
    { intros k z Hk Hz Hnew Hzmail. cbn [amend email] in Hnew.
      destruct (ab_email b) as [e'|] eqn:Hb.
      - injection Hnew as ->. rewrite He in Htaken. cbn [andb coalesce] in Htaken.
        apply (email_free e _ Htaken k z); [|exact Hzmail].
        rewrite lookup_delete_ne by congruence. exact Hz.
      - apply Hk. exact (Hu k id z old e Hz Hid Hzmail Hnew He). }
    apply lookup_alter_Some in Hi as [(<- & x0 & Hx0 & ->) | (Hni & Hi)];
      apply lookup_alter_Some in Hj as [(Hji & y0 & Hy0 & ->) | (Hnj & Hj)].
    + congruence.
    + assert (x0 = old) by congruence. subst x0.
      exfalso. apply (Hother j y); [congruence | exact Hj | exact Hx | exact Hy].
    + subst j. assert (y0 = old) by congruence. subst y0.
      exfalso. apply (Hother i x); [congruence | exact Hi | exact Hy | exact Hx].
    + exact (Hu i j x y e Hi Hj Hx Hy He).
Qed.

(** X21.  Creating an athlete either refuses and writes nothing - in
    particular when another athlete holds the email sent - or puts on file
    one athlete under the id drawn, with the names, email and waiver data of
    the request, a waiver flag that is false when none was sent, and no
    visit yet; events, check-ins and other athletes are not touched. *)
Theorem createAthlete_effect clock id b t :
  let out := createAthlete clock id b t in
  events out.2 = events t /\ checkins out.2 = checkins t /\
  (forall code msg, out.1 = Refused code msg -> out.2 = t) /\
  (forall e j other, ab_email b = Some e -> truthy (Some e) = true ->
     athletes t !! j = Some other -> email other = Some e ->
     exists code msg, out.1 = Refused code msg /\ code = 400) /\
  (forall code p, out.1 = Answered code p ->
     code = 201 /\ athletes t !! id = None /\
     exists first last, ab_firstName b = Some first /\ ab_lastName b = Some last /\
       athletes out.2 !! id
       = Some (mkAthlete id first last (ab_email b)
                 (if ab_hasValidWaiver b is Some x then x else false)
                 (ab_waiverExpirationDate b) None clock) /\
       (forall other, other <> id -> athletes out.2 !! other = athletes t !! other)).
Proof.
  cbn zeta. unfold createAthlete.
  destruct (negb (truthy (ab_firstName b)) || negb (truthy (ab_lastName b))
            || negb (truthy (ab_dateOfBirth b)) || negb (truthy (ab_emergencyContact b))
            || negb (truthy (ab_emergencyPhone b)));
    [cbn [fst snd]; repeat split; intros; try discriminate; eauto|].
  destruct (ab_firstName b) as [first|];
    [|cbn [fst snd]; repeat split; intros; try discriminate; eauto].
  destruct (ab_lastName b) as [last|];
    [|cbn [fst snd]; repeat split; intros; try discriminate; eauto].
  destruct (truthy (ab_email b) && email_taken (coalesce (ab_email b) "") (athletes t))
    eqn:Htaken; [cbn [fst snd]; repeat split; intros; try discriminate; eauto|].
  assert (Hfree : forall e j other, ab_email b = Some e -> truthy (Some e) = true ->
                    athletes t !! j = Some other -> email other = Some e -> False).
  { intros e j other Hb He Hj Hmail.
    rewrite Hb, He in Htaken. cbn [andb coalesce] in Htaken.
    exact (email_free e _ Htaken j other Hj Hmail). }
  destruct (athletes t !! id) as [old|] eqn:Hid.
  - cbn [fst snd]. repeat split; intros; try discriminate; eauto.
    exfalso. eauto.
  - cbn [fst snd events checkins athletes]. split; [reflexivity|]. split; [reflexivity|].
    split; [discriminate|]. split.
    + intros e j other Hb He Hj Hmail. exfalso.
      rewrite Hb, He in Htaken. cbn [andb coalesce] in Htaken.
      exact (email_free e _ Htaken j other Hj Hmail).
    + intros code p [= <- <-]. split; [reflexivity|]. split; [reflexivity|].
      exists first, last. split; [reflexivity|]. split; [reflexivity|]. split.
      * rewrite lookup_insert_eq. reflexivity.
      * intros other Hne. apply lookup_insert_ne. congruence.
Qed.

(** X22.  Updating an athlete who is on file writes the fields the request
    holds and keeps the others, an empty string included: an update that
    sends an empty email or an empty expiration date stores it, the email
    without looking for another holder, and an athlete with a valid waiver
    whose expiration date is empty passes the waiver test of check-in at
    every time of the clock.  The update never writes the id or lastVisited
    and touches no event, no check-in row and no other athlete.  It is
    refused with 400 when another athlete holds the email sent, and with 404
    when the athlete is not on file; a refusal writes nothing. *)
Theorem updateAthlete_effect clock id b t :
  let out := updateAthlete clock id b t in
  events out.2 = events t /\ checkins out.2 = checkins t /\
  (forall other, other <> id -> athletes out.2 !! other = athletes t !! other) /\
  (forall code msg, out.1 = Refused code msg -> out.2 = t) /\
  (athletes t !! id = None -> out.1 = Refused 404 "Athlete not found") /\
  (forall e j other, ab_email b = Some e -> truthy (Some e) = true -> j <> id ->
     athletes t !! j = Some other -> email other = Some e ->
     is_Some (athletes t !! id) ->
     out.1 = Refused 400 "Email already in use by another athlete") /\
  (forall a code p, athletes t !! id = Some a -> out.1 = Answered code p ->
     code = 200 /\
     exists a', athletes out.2 !! id = Some a' /\
       a_id a' = a_id a /\ lastVisited a' = lastVisited a /\
       firstName a' = (if ab_firstName b is Some x then x else firstName a) /\
       lastName a' = (if ab_lastName b is Some x then x else lastName a) /\
       email a' = (if ab_email b is Some x then Some x else email a) /\
       hasValidWaiver a' = (if ab_hasValidWaiver b is Some x then x else hasValidWaiver a) /\
       waiverExpirationDate a'
       = (if ab_waiverExpirationDate b is Some x then Some x else waiverExpirationDate a)) /\
  (forall a, athletes t !! id = Some a -> ab_email b = Some "" ->
     exists a', out.1 = Answered 200 (Some a', "Athlete updated successfully") /\
       athletes out.2 !! id = Some a' /\ email a' = Some "" /\
       truthy (email a') = false) /\
  (forall a code p, athletes t !! id = Some a -> out.1 = Answered code p ->
     ab_waiverExpirationDate b = Some "" ->
     exists a', athletes out.2 !! id = Some a' /\
       waiverExpirationDate a' = Some "" /\
       forall Date_parse now,
         waiver_check Date_parse a' now = hasValidWaiver a').
Proof.
  cbn zeta. unfold updateAthlete.
  destruct (athletes t !! id) as [old|] eqn:Hid.
  - destruct (truthy (ab_email b)
              && email_taken (coalesce (ab_email b) "") (delete id (athletes t)))
      eqn:Htaken.
    + cbn [fst snd].
      split; [reflexivity|]. split; [reflexivity|]. split; [reflexivity|].
      split; [reflexivity|]. split; [discriminate|]. split; [reflexivity|].
      split; [discriminate|]. split; [|discriminate].
      intros a _ Hb. rewrite Hb in Htaken. discriminate.
    + cbn [fst snd events checkins athletes]. split; [reflexivity|]. split; [reflexivity|].
      split; [intros other Hne; apply lookup_alter_ne; congruence|].
      split; [discriminate|]. split; [discriminate|]. split; [|split; [|split]].
      * intros e j other Hb He Hne Hj Hmail _. exfalso.
        rewrite Hb, He in Htaken. cbn [andb coalesce] in Htaken.
        apply (email_free e _ Htaken j other); [|exact Hmail].
        rewrite lookup_delete_ne by congruence. exact Hj.
      * intros a code p [= <-] [= <- <-]. split; [reflexivity|].
        exists (amend b clock old). rewrite lookup_alter_eq, Hid.
        cbn [amend a_id lastVisited firstName lastName email hasValidWaiver
               waiverExpirationDate].
        repeat split; destruct b as [f l e d c ph hv x]; cbn;
          try destruct f; try destruct l; try destruct hv; reflexivity.
      * intros a [= <-] Hb. exists (amend b clock old).
        rewrite lookup_alter_eq, Hid. cbn [amend email]. rewrite Hb.
        repeat split.
      * intros a code p [= <-] _ Hx. exists (amend b clock old).
        rewrite lookup_alter_eq, Hid. cbn [amend waiverExpirationDate]. rewrite Hx.
        split; [reflexivity|]. split; [reflexivity|].
        intros Date_parse now. unfold waiver_check.
        cbn [amend hasValidWaiver waiverExpirationDate]. rewrite Hx.
        destruct (coalesce (ab_hasValidWaiver b) (hasValidWaiver old)); reflexivity.
  - cbn [fst snd].
    split; [reflexivity|]. split; [reflexivity|]. split; [reflexivity|].
    split; [reflexivity|]. split; [reflexivity|]. split.
    { intros e j other _ _ _ _ _ [x Hx]. discriminate. }
    split; [discriminate|]. split; discriminate.
Qed.

(** ** The further properties on the small venue *)

Lemma venue_events id e :
  events venue !! id = Some e -> e = open_gym \/ e = clinic \/ e = scrimmage.
Proof.
  unfold venue. cbn [events]. intros H.
  apply lookup_insert_Some in H as [[_ <-] | [_ H]]; [tauto|].
  apply lookup_insert_Some in H as [[_ <-] | [_ H]]; [tauto|].
  apply lookup_insert_Some in H as [[_ <-] | [_ H]]; [tauto|].
  rewrite lookup_empty in H. discriminate.
Qed.

Lemma venue_sound :
  unique_ids venue /\ capacity_consistent venue /\ no_orphans venue /\
  within_capacity venue.
Proof.
  split; [constructor|]. split; [|split].
  - intros id e H. destruct (venue_events id e H) as [-> | [-> | ->]]; reflexivity.
  - intros c [].
  - intros id e H. destruct (venue_events id e H) as [-> | [-> | ->]]; cbn; lia.
Qed.

Lemma venue_emails : unique_emails venue.
Proof.
  intros i j a b e Hi Hj Ha Hb _. unfold venue in Hi, Hj. cbn [athletes] in Hi, Hj.
  apply lookup_insert_Some in Hi as [[_ <-] | [_ Hi]]; [discriminate|].
  apply lookup_insert_Some in Hi as [[<- <-] | [_ Hi]];
    [|rewrite lookup_empty in Hi; discriminate].
  apply lookup_insert_Some in Hj as [[_ <-] | [_ Hj]]; [discriminate|].
  apply lookup_insert_Some in Hj as [[<- <-] | [_ Hj]];
    [reflexivity | rewrite lookup_empty in Hj; discriminate].
Qed.

Lemma store_invariants_witness :
  capacity_consistent (after sample_parse busy_day venue) /\
  no_orphans (after sample_parse busy_day venue).
Proof.
  destruct venue_sound as (H1 & H2 & H3 & _).
  destruct (store_invariants sample_parse busy_day venue H1 H2 H3) as (_ & H5 & H6 & _).
  split; assumption.
Defined.

Lemma capacity_kept_witness : within_capacity (after sample_parse busy_day venue).
Proof.
  apply (capacity_kept sample_parse busy_day venue). apply venue_sound.
Defined.

Lemma createCheckIn_rejects_early_witness :
  run (createCheckIn sample_parse (at_desk "c1") (mkBody (Some "a1") (Some "") None))
      (idle venue)
  = (json 400 (Error "Athlete ID and Event ID are required"), idle venue) /\
  run (createCheckIn sample_parse (at_desk "c1") (ask "zz" "nowhere")) (idle venue)
  = (json 404 (Error "Athlete not found"), idle venue).
Proof.
  split.
  - apply (proj1 (createCheckIn_rejects_early sample_parse (at_desk "c1")
                    (mkBody (Some "a1") (Some "") None) venue)).
    right. reflexivity.
  - apply (proj2 (createCheckIn_rejects_early sample_parse (at_desk "c1")
                    (ask "zz" "nowhere") venue) "zz"); vm_compute; reflexivity.
Defined.

Lemma createCheckIn_writes_witness :
  exists aid eid a e,
    reaches_event (ask "a1" "e1") venue aid eid a e /\
    events (cur (run (createCheckIn sample_parse (at_desk "c1") (ask "a1" "e1"))
                   (idle venue)).2) !! eid
    = Some (mkEvent (e_id e) (name e) (date e) (maxCapacity e) (currentCapacity e + 1)
              (isActive e) (clock_checkin (at_desk "c1"))).
Proof.
  destruct (createCheckIn_writes sample_parse (at_desk "c1") (ask "a1" "e1") venue)
    as (aid & eid & a & e & Hr & _ & _ & He & _).
  - vm_compute. reflexivity.
  - exists aid, eid, a, e. split; assumption.
Defined.

Lemma create_then_reverse_witness :
  checkins (cur (run (reverseCheckIn "2025-03-02T11:00:00.000Z" (uuid (at_desk "c1")))
                   (run (createCheckIn sample_parse (at_desk "c1") (ask "a1" "e1"))
                      (idle venue)).2).2)
  = checkins venue.
Proof.
  apply (create_then_reverse sample_parse (at_desk "c1") (ask "a1" "e1")
           "2025-03-02T11:00:00.000Z" venue).
  vm_compute. reflexivity.
Defined.

Lemma reverse_twice_witness :
  (run (reverseCheckIn "2025-03-02T11:00:00.000Z" "c1") (idle venue)).1
  = json 404 (Error "Check-in not found").
Proof.
  apply (proj2 (proj2 (reverse_twice "2025-03-02T11:00:00.000Z"
                         "2025-03-02T11:00:00.000Z" "c1" venue))).
  reflexivity.
Defined.

Lemma updateNotes_effect_witness :
  checkins (cur (run (updateNotes "c1" (Some "late")) (idle venue_full)).2) !! 0%nat
  = Some (mkCheckIn "c1" "a1" "e1" "2025-03-02T10:00:01.000Z" true (Some "late")
            "2025-03-02T10:00:01.000Z") /\
  (run (updateNotes "c7" (Some "late")) (idle venue_full)).2 = idle venue_full.
Proof.
  split.
  - destruct (updateNotes_effect "c1" (Some "late") venue_full) as (_ & _ & _ & _ & H & _).
    apply (H 0%nat (new_row true (at_desk "c1") "a1" "e1" None)). reflexivity.
  - destruct (updateNotes_effect "c7" (Some "late") venue_full) as (_ & _ & _ & _ & _ & H & _).
    apply H. vm_compute. reflexivity.
Defined.

Lemma toggleEvent_effect_witness :
  (isActive <$> events (cur (run (toggleEvent "2025-03-02T10:30:00.000Z" "e1")
                              (idle venue)).2) !! "e1") = Some false.
Proof.
  destruct (toggleEvent_effect "2025-03-02T10:30:00.000Z" "2025-03-02T10:31:00.000Z"
              "e1" venue open_gym) as (_ & H & _).
  - vm_compute. reflexivity.
  - rewrite H. reflexivity.
Defined.

Lemma deactivated_event_refuses_witness :
  (run (createCheckIn sample_parse (at_desk "c1") (ask "a1" "e1"))
     (run (toggleEvent "2025-03-02T10:30:00.000Z" "e1") (idle venue)).2).1
  = json 404 (Error "Event not found or inactive").
Proof.
  apply (deactivated_event_refuses sample_parse "2025-03-02T10:30:00.000Z" (at_desk "c1")
           (ask "a1" "e1") venue "a1" "e1" ann open_gym).
  - vm_compute. repeat split; reflexivity.
  - reflexivity.
Defined.

Lemma listings_partition_witness :
  listed_disabled "2025-03-02" open_gym = false /\
  listed_past "2025-03-02" open_gym = false /\
  listed_today "2025-03-02" clinic = false /\
  listed_disabled "2025-03-02" clinic = false /\
  listed_past "2025-03-02" clinic = false.
Proof.
  destruct (listings_partition "2025-03-02" open_gym) as (H1 & _).
  destruct (listings_partition "2025-03-02" clinic) as (_ & _ & H2).
  split; [apply H1; reflexivity|]. split; [apply H1; reflexivity|].
  apply H2. split; reflexivity.
Defined.

Lemma deleted_athlete_witness :
  (run (updateNotes "c1" (Some "left early"))
     (run (deleteAthlete "a1") (idle venue_full)).2).1
  = json 200 (CheckinUpdated None "Notes updated successfully").
Proof.
  destruct (deleted_athlete sample_parse "a1" venue_full
              (visit (before_T (clock_checkin (at_desk "c1"))) (clock_checkin (at_desk "c1")) ann))
    as (_ & _ & H).
  - vm_compute. reflexivity.
  - apply (H "c1" (Some "left early") (new_row true (at_desk "c1") "a1" "e1" None)).
    + repeat constructor. intros [].
    + reflexivity.
    + reflexivity.
Defined.

Lemma eventCheckins_listing_witness :
  Z.of_nat (length (eventCheckins "e1" venue_full)) = count_for "e1" venue_full /\
  Z.of_nat (length (eventCheckins "e1"
                      (run (deleteAthlete "a1") (idle venue_full)).2.(cur)))
  < count_for "e1" (run (deleteAthlete "a1") (idle venue_full)).2.(cur).
Proof.
  split.
  - destruct (eventCheckins_listing "e1" venue_full) as (_ & _ & _ & H & _).
    apply H. intros c [<- | []] _. vm_compute. eauto.
  - destruct (eventCheckins_listing "e1"
                (run (deleteAthlete "a1") (idle venue_full)).2.(cur)) as (_ & _ & _ & _ & H).
    apply (H (new_row true (at_desk "c1") "a1" "e1" None)).
    + left. reflexivity.
    + reflexivity.
    + vm_compute. reflexivity.
Defined.


Lemma checkinStats_counts_witness :
  let s := checkinStats iso_day "2025-03-02T12:00:00.000Z" "2025-02-23T12:00:00.000Z"
             venue_full in
  stats_today s <= stats_thisWeek s.
Proof.
  apply (checkinStats_counts iso_day "2025-03-02T12:00:00.000Z"
           "2025-02-23T12:00:00.000Z" venue_full).
  vm_compute. reflexivity.
Defined.

Lemma exportCheckins_rows_witness :
  (forall c, export_where iso_day (mkFilters None (Some "") None) c = true) /\
  (forall c, export_where iso_day
               (mkFilters (Some "2025-03-01") (Some "2025-03-31") (Some "e1")) c
             = date_from iso_day "2025-03-01" c && date_until iso_day "2025-03-31" c
               && for_event "e1" c).
Proof.
  split.
  - destruct (exportCheckins_rows iso_day (mkFilters None (Some "") None) venue)
      as (_ & _ & H & _).
    apply H; reflexivity.
  - intros c.
    destruct (exportCheckins_rows iso_day (mkFilters None None None) venue)
      as (_ & _ & _ & H & _).
    apply H; reflexivity.
Defined.

Lemma createEvent_effect_witness :
  events (createEvent "2025-03-01T09:00:00.000Z" "e9" evening_gym venue).2 !! "e9"
  = Some (mkEvent "e9" "Evening gym" "2025-03-02" 8 0 true "2025-03-01T09:00:00.000Z") /\
  createEvent "2025-03-01T09:00:00.000Z" "e9"
    (mkEventBody (Some "Evening gym") None (Some "2025-03-02") (Some "18:00")
       (Some "20:00") (Some 0) None) venue
  = (json 400 (Error "All required fields must be provided"), venue).
Proof.
  split.
  - destruct (createEvent_effect "2025-03-01T09:00:00.000Z" "e9" evening_gym venue)
      as (_ & _ & _ & H & _).
    destruct H as (n & d & c & H1 & H2 & H3 & _ & _ & H6 & _).
    + vm_compute. reflexivity.
    + rewrite H6. injection H1 as <-. injection H2 as <-. injection H3 as <-. reflexivity.
  - apply (createEvent_effect "2025-03-01T09:00:00.000Z" "e9"
             (mkEventBody (Some "Evening gym") None (Some "2025-03-02") (Some "18:00")
                (Some "20:00") (Some 0) None) venue).
    reflexivity.
Defined.

Lemma updateEvent_effect_witness :
  exists e', events (updateEvent "2025-03-02T09:30:00.000Z" "e2" one_place_only venue).2
             !! "e2" = Some e' /\
             maxCapacity e' = 1 /\ currentCapacity e' = currentCapacity clinic /\
             date e' = date clinic.
Proof.
  destruct (updateEvent_effect "2025-03-02T09:30:00.000Z" "e2" one_place_only venue)
    as (_ & H & _).
  destruct (H clinic) as (_ & e' & He & _ & Hc & _ & Hd & Hm & _).
  - vm_compute. reflexivity.
  - exists e'. repeat split; assumption.
Defined.

Lemma lowered_capacity_refuses_witness :
  (run (createCheckIn sample_parse (at_desk "c2") (ask "a2" "e2"))
     (idle (updateEvent "2025-03-02T09:30:00.000Z" "e2"
              (mkEventBody None None None None None (Some 0) None) venue).2)).1
  = json 400 (Error "Event is at full capacity").
Proof.
  rewrite (lowered_capacity_refuses sample_parse "2025-03-02T09:30:00.000Z"
             (mkEventBody None None None None None (Some 0) None)
             (at_desk "c2") (ask "a2" "e2") venue "a2" "e2" bob clinic 0).
  - reflexivity.
  - vm_compute. repeat split; reflexivity.
  - reflexivity.
  - cbn. lia.
  - reflexivity.
  - vm_compute. reflexivity.
  - reflexivity.
Defined.

Lemma waiver_update_then_checkin_witness :
  exists view msg,
    (run (createCheckIn sample_parse (at_desk "c2") (ask "a2" "e1"))
       (idle (updateWaiver "2025-03-02T09:00:00.000Z" "a2" signed_for_good venue).2)).1
    = json 201 (CheckinCreated view true msg).
Proof.
  destruct (waiver_update_then_checkin sample_parse "2025-03-02T09:00:00.000Z" "a2"
              signed_for_good venue bob) as (_ & _ & _ & H).
  - vm_compute. reflexivity.
  - destruct (H (at_desk "c2") (ask "a2" "e1")) as [Hv _].
    + reflexivity.
    + vm_compute. reflexivity.
    + exact Hv.
Defined.

Lemma athlete_emails_stay_unique_witness :
  unique_emails (createAthlete "2025-03-02T09:00:00.000Z" "a3" cat venue).2 /\
  unique_emails (updateAthlete "2025-03-02T09:00:00.000Z" "a1" new_email venue).2.
Proof.
  split.
  - apply (athlete_emails_stay_unique "2025-03-02T09:00:00.000Z" "a3" cat venue).
    exact venue_emails.
  - apply (athlete_emails_stay_unique "2025-03-02T09:00:00.000Z" "a1" new_email venue).
    exact venue_emails.
Defined.

Lemma createAthlete_effect_witness :
  exists code msg,
    (createAthlete "2025-03-02T09:00:00.000Z" "a3" cat_with_bobs_email venue).1
    = Refused code msg /\ code = 400.
Proof.
  destruct (createAthlete_effect "2025-03-02T09:00:00.000Z" "a3" cat_with_bobs_email venue)
    as (_ & _ & _ & H & _).
  apply (H "bob@example.org" "a2" bob); vm_compute; reflexivity.
Defined.

Lemma updateAthlete_effect_witness :
  let out := updateAthlete "2025-03-02T09:00:00.000Z" "a1" new_email venue in
  let blanked := updateAthlete "2025-06-02T09:00:00.000Z" "a1" blanks venue in
  (exists a', athletes out.2 !! "a1" = Some a' /\
              email a' = Some "ann@example.org" /\
              waiverExpirationDate a' = waiverExpirationDate ann) /\
  waiver_check sample_parse ann 1748822400000 = false /\
  (exists a', athletes blanked.2 !! "a1" = Some a' /\
              waiverExpirationDate a' = Some "" /\
              waiver_check sample_parse a' 1748822400000 = true).
Proof.
  cbn zeta. split; [|split; [reflexivity|]].
  - destruct (updateAthlete_effect "2025-03-02T09:00:00.000Z" "a1" new_email venue)
      as (_ & _ & _ & _ & _ & _ & H & _).
    destruct (H ann 200 (athletes (updateAthlete "2025-03-02T09:00:00.000Z" "a1" new_email
                                     venue).2 !! "a1", "Athlete updated successfully"))
      as (_ & a' & Ha & _ & _ & _ & _ & He & _ & Hx).
    + vm_compute. reflexivity.
    + vm_compute. reflexivity.
    + exists a'. repeat split; assumption.
  - destruct (updateAthlete_effect "2025-06-02T09:00:00.000Z" "a1" blanks venue)
      as (_ & _ & _ & _ & _ & _ & H & _ & Hblank).
    destruct (H ann 200 (athletes (updateAthlete "2025-06-02T09:00:00.000Z" "a1" blanks
                                     venue).2 !! "a1", "Athlete updated successfully"))
      as (_ & a1 & Ha1 & _ & _ & _ & _ & _ & Hv & _);
      [vm_compute; reflexivity | vm_compute; reflexivity |].
    destruct (Hblank ann 200 (athletes (updateAthlete "2025-06-02T09:00:00.000Z" "a1" blanks
                                          venue).2 !! "a1", "Athlete updated successfully"))
      as (a' & Ha & Hx & Hw);
      [vm_compute; reflexivity | vm_compute; reflexivity | reflexivity |].
    exists a'. split; [exact Ha|]. split; [exact Hx|].
    rewrite Hw. assert (a1 = a') by congruence. subst a1. rewrite Hv. reflexivity.
Defined.
(** * The transaction, with a store that may refuse *)

Lemma run_under_willing p : forall n db,
  answer (run_under willing n p db) = (run p db).1 /\
  store (run_under willing n p db) = (run p db).2.
Proof.
  induction p as [r | A q k IH]; intros n db; [split; reflexivity|].
  cbn [run_under run willing attempt].
  destruct (exec q db) as [a db1]. cbn [answer store]. apply IH.
Qed.

Lemma ends_as_send (Q : Response -> DB -> Prop) refuses ph n r db :
  accepting (Some ph) = true -> Q r db -> ends_as Q refuses ph n (Send r) db.
Proof. intros Ha Hq. split; assumption. Qed.

Lemma ends_as_await (Q : Response -> DB -> Prop) refuses ph n {A} (q : Query A) k db :
  (forall a db', attempt (refuses n) q db = (a, db') ->
     exists ph',
       next ph (mkSent (kind_of q) (match a with Some _ => false | None => true end))
       = Some ph' /\
       ends_as Q refuses ph' (S n) (k a) db') ->
  ends_as Q refuses ph n (Await q k) db.
Proof.
  intros H. unfold ends_as. cbn [run_under].
  destruct (attempt (refuses n) q db) as [a db'] eqn:Ha.
  destruct (H a db' eq_refl) as (ph' & Hn & Hl & Hq).
  cbn [log answer store follows]. rewrite Hn. split; assumption.
Qed.

(** One statement further: the store refuses it or runs it. *)
Ltac send R H :=
  apply ends_as_await; unfold attempt;
  destruct R eqn:H;
  [ intros ? ? [= <- <-]; eexists; split; [reflexivity|]
  | cbn [exec idle cur txn write]; intros ? ? [= <- <-]; eexists; split; [reflexivity|] ].

Ltac stop := apply ends_as_send; [reflexivity|].

Ltac as_ending o :=
  match goal with
  | |- _ /\ ?G =>
      let Q := eval pattern (answer o), (store o) in G in
      match Q with ?F _ _ => set (ending := F) end
  end.

Lemma createCheckIn_under Date_parse refuses w b t :
  let o := run_under refuses 0 (createCheckIn Date_parse w b) (idle t) in
  one_transaction (log o) = true /\
  ((status (answer o) = 201 /\
    exists aid eid a e, reaches_event b t aid eid a e /\
      store o = idle (checked_in (waiver_check Date_parse a (clock_now w))
                        w aid eid (b_notes b) t))
   \/ (succeeded (answer o) = false /\ store o = idle t)
   \/ (status (answer o) = 500 /\ refuses 8%nat = true /\
       exists aid eid a e, reaches_event b t aid eid a e /\
         store o = idle (checked_in (waiver_check Date_parse a (clock_now w))
                           w aid eid (b_notes b) t))
   \/ (status (answer o) = 500 /\ txn (store o) = Some t /\
       exists k, (4 <= k <= 7)%nat /\ refuses (S k) = true /\
         (refuses k = true \/
          k = 4%nat /\ existsb (has_id (uuid w)) (checkins t) = true))).
Proof.
  cbn zeta.
  as_ending (run_under refuses 0 (createCheckIn Date_parse w b) (idle t)).
  change (ends_as ending refuses Outside 0 (createCheckIn Date_parse w b) (idle t)).
  assert (Hnone : forall r, succeeded r = false -> ending r (idle t))
    by (intros r Hr; right; left; split; [exact Hr | reflexivity]).
  assert (Hopen : forall cur' k, (4 <= k <= 7)%nat -> refuses (S k) = true ->
            (refuses k = true \/
             k = 4%nat /\ existsb (has_id (uuid w)) (checkins t) = true) ->
            ending (json 500 (Error "Failed to create check-in")) (mkDB cur' (Some t))).
  { intros cur' k Hk H1 H2. right; right; right.
    split; [reflexivity|]. split; [reflexivity|]. exists k. auto. }
  unfold createCheckIn.
  destruct (b_athleteId b) as [aid|] eqn:Hb1; [|stop; apply Hnone; reflexivity].
  destruct (b_eventId b) as [eid|] eqn:Hb2; [|stop; apply Hnone; reflexivity].
  destruct (truthy (Some aid)) eqn:Hn1; [|stop; apply Hnone; reflexivity].
  destruct (truthy (Some eid)) eqn:Hn2; [|stop; apply Hnone; reflexivity].
  cbn [negb orb]. unfold await, reply.
  send (refuses 0%nat) R0; [stop; apply Hnone; reflexivity|].
  destruct (athletes t !! aid) as [a|] eqn:Hat; [|stop; apply Hnone; reflexivity].
  send (refuses 1%nat) R1; [stop; apply Hnone; reflexivity|].
  destruct (events t !! eid) as [e|] eqn:Het; [|stop; apply Hnone; reflexivity].
  destruct (isActive e); [|stop; apply Hnone; reflexivity].
  destruct (str_lt (date e) (before_T (clock_today w)));
    [stop; apply Hnone; reflexivity|].
  send (refuses 2%nat) R2; [stop; apply Hnone; reflexivity|].
  destruct (List.find (for_pair aid eid) (checkins t)); cbn [option_map];
    [stop; apply Hnone; reflexivity|].
  destruct (currentCapacity e >=? maxCapacity e); [stop; apply Hnone; reflexivity|].
  assert (Hr : reaches_event b t aid eid a e) by (repeat split; assumption).
  send (refuses 3%nat) R3; [stop; apply Hnone; reflexivity|].
  (* INSERT *)
  apply ends_as_await; unfold attempt. destruct (refuses 4%nat) eqn:R4.
  { intros ? ? [= <- <-]. eexists; split; [reflexivity|].
    send (refuses 5%nat) R5; stop;
      [apply (Hopen _ 4%nat); auto; lia | apply Hnone; reflexivity]. }
  cbn [exec cur c_id]. destruct (existsb (has_id (uuid w)) (checkins t)) eqn:Hk.
  { intros ? ? [= <- <-]. eexists; split; [reflexivity|].
    send (refuses 5%nat) R5; stop;
      [apply (Hopen _ 4%nat); auto; lia | apply Hnone; reflexivity]. }
  cbn [write txn]. intros ? ? [= <- <-]. eexists; split; [reflexivity|].
  (* UPDATE events *)
  send (refuses 5%nat) R5.
  { send (refuses 6%nat) R6; stop;
      [apply (Hopen _ 5%nat); auto; lia | apply Hnone; reflexivity]. }
  cbn [athletes events checkins].
  (* UPDATE athletes *)
  send (refuses 6%nat) R6.
  { send (refuses 7%nat) R7; stop;
      [apply (Hopen _ 6%nat); auto; lia | apply Hnone; reflexivity]. }
  cbn [athletes events checkins].
  (* COMMIT *)
  send (refuses 7%nat) R7.
  { send (refuses 8%nat) R8; stop;
      [apply (Hopen _ 7%nat); auto; lia | apply Hnone; reflexivity]. }
  (* the read back *)
  send (refuses 8%nat) R8.
  { assert (Hall : ending (json 500 (Error "Failed to create check-in"))
                     (idle (checked_in (waiver_check Date_parse a (clock_now w))
                              w aid eid (b_notes b) t))).
    { right; right; left. split; [reflexivity|]. split; [first [exact R8 | reflexivity]|].
      exists aid, eid, a, e. split; [exact Hr | reflexivity]. }
    send (refuses 9%nat) R9; stop; exact Hall. }
  stop. left. split; [reflexivity|].
  exists aid, eid, a, e. split; [exact Hr | reflexivity].
Qed.

Lemma log_await refuses n {A} (q : Query A) k db :
  log (run_under refuses n (Await q k) db)
  = mkSent (kind_of q)
      (match (attempt (refuses n) q db).1 with Some _ => false | None => true end)
    :: log (run_under refuses (S n) (k (attempt (refuses n) q db).1)
              (attempt (refuses n) q db).2).
Proof.
  cbn [run_under]. destruct (attempt (refuses n) q db) as [a db']. reflexivity.
Qed.

Ltac logged :=
  rewrite log_await;
  cbn [attempt willing exec idle cur txn write fst snd kind_of option_map c_id
       athletes events checkins].

(** The statements of an accepted check-in, in the order they are sent. *)
Lemma createCheckIn_log Date_parse w b t aid eid a e :
  reaches_event b t aid eid a e -> isActive e = true ->
  str_lt (date e) (before_T (clock_today w)) = false ->
  List.find (for_pair aid eid) (checkins t) = None ->
  currentCapacity e < maxCapacity e ->
  existsb (has_id (uuid w)) (checkins t) = false ->
  log (run_under willing 0 (createCheckIn Date_parse w b) (idle t))
  = map (fun k => mkSent k false)
      [Reading; Reading; Reading; Beginning; Writing; Writing; Writing;
       Committing; Reading].
Proof.
  intros (Hb1 & Hb2 & Hn1 & Hn2 & Hat & Het) Hact Hp Hf Hc Hk.
  unfold createCheckIn. rewrite Hb1, Hb2, Hn1, Hn2. cbn [negb orb].
  unfold await, reply.
  logged. rewrite Hat. logged. rewrite Het, Hact, Hp. logged. rewrite Hf.
  cbn [option_map]. replace (currentCapacity e >=? maxCapacity e) with false by lia.
  logged. logged. rewrite Hk. cbn [fst snd write txn cur].
  logged. logged. logged. logged. reflexivity.
Qed.

(** C4, as the handler has it.  The four tests of createCheckIn look at rows
    read before BEGIN TRANSACTION.  The insert and the two cascading updates
    are the only writes of the call and lie between one BEGIN and its COMMIT:
    an accepted call sends three reads, BEGIN, the three writes, COMMIT and
    one read, in this order.  Whatever statements the store rejects, the call
    keeps to that one transaction, and a statement rejected after BEGIN is
    followed by ROLLBACK and nothing else.  The call answers 201 only with
    all three effects committed.  When it answers a failure the tables are
    as before the call, with two exceptions: a store that rejects the
    ROLLBACK too is left with the transaction open, and a store that rejects
    the read that follows COMMIT has all three effects committed behind the
    answer 500.  A store that rejects nothing on its own account is the store
    of a call that runs alone: there the call ends with all three effects and
    a success, or with the tables as they were and a failure; a call that
    passes the four tests is answered 201 when its id is free, and 500 after
    ROLLBACK when its id is taken. *)
Theorem createCheckIn_atomicity Date_parse w b t :
  let call := createCheckIn Date_parse w b in
  let out := run call (idle t) in
  (forall refuses, one_transaction (log (run_under refuses 0 call (idle t))) = true) /\
  (answer (run_under willing 0 call (idle t)) = out.1 /\
   store (run_under willing 0 call (idle t)) = out.2) /\
  (status out.1 = 201 ->
     log (run_under willing 0 call (idle t))
     = map (fun k => mkSent k false)
         [Reading; Reading; Reading; Beginning; Writing; Writing; Writing;
          Committing; Reading]) /\
  ((succeeded out.1 = true /\
    exists aid eid a e, reaches_event b t aid eid a e /\
      out.2 = idle (checked_in (waiver_check Date_parse a (clock_now w))
                      w aid eid (b_notes b) t))
   \/ (succeeded out.1 = false /\ out.2 = idle t)) /\
  (forall refuses,
     let o := run_under refuses 0 call (idle t) in
     (status (answer o) = 201 /\
      exists aid eid a e, reaches_event b t aid eid a e /\
        store o = idle (checked_in (waiver_check Date_parse a (clock_now w))
                          w aid eid (b_notes b) t))
     \/ (succeeded (answer o) = false /\ store o = idle t)
     \/ (status (answer o) = 500 /\ refuses 8%nat = true /\
         exists aid eid a e, reaches_event b t aid eid a e /\
           store o = idle (checked_in (waiver_check Date_parse a (clock_now w))
                             w aid eid (b_notes b) t))
     \/ (status (answer o) = 500 /\ txn (store o) = Some t /\
         exists k, (4 <= k <= 7)%nat /\ refuses (S k) = true /\
           (refuses k = true \/
            k = 4%nat /\ existsb (has_id (uuid w)) (checkins t) = true))) /\
  (forall aid eid a e,
     reaches_event b t aid eid a e -> isActive e = true ->
     str_lt (date e) (before_T (clock_today w)) = false ->
     existsb (for_pair aid eid) (checkins t) = false ->
     currentCapacity e < maxCapacity e ->
     (existsb (has_id (uuid w)) (checkins t) = true ->
        out = (json 500 (Error "Failed to create check-in"), idle t)) /\
     (existsb (has_id (uuid w)) (checkins t) = false ->
        status out.1 = 201 /\
        out.2 = idle (checked_in (waiver_check Date_parse a (clock_now w))
                        w aid eid (b_notes b) t))).
Proof.
  cbn zeta. split; [|split; [|split; [|split; [|split]]]].
  - intros refuses. apply (createCheckIn_under Date_parse refuses w b t).
  - apply run_under_willing.
  - intros Hst.
    destruct (createCheckIn_cases Date_parse w b t)
      as [(aid & eid & a & e & Hr & Hact & Hp & Hf & Hc & Hk & _) | [Hno _]].
    + apply (createCheckIn_log Date_parse w b t aid eid a e); assumption.
    + cbn zeta in Hno. unfold succeeded in Hno. rewrite Hst in Hno. discriminate.
  - destruct (createCheckIn_cases Date_parse w b t)
      as [(aid & eid & a & e & Hr & _ & _ & _ & _ & _ & Hst & Hdb) | Hno];
      [left | right; exact Hno].
    split; [unfold succeeded; cbn zeta in Hst; rewrite Hst; reflexivity|].
    exists aid, eid, a, e. split; assumption.
  - intros refuses. apply (createCheckIn_under Date_parse refuses w b t).
  - intros aid eid a e Hr Hact Hp Hd Hc.
    apply find_none_existsb in Hd. split; intros Hk.
    + apply (create_clash Date_parse w b t aid eid a e); assumption.
    + rewrite (create_ok Date_parse w b t aid eid a e Hr Hact Hp Hd Hc Hk).
      split; reflexivity.
Qed.

(** The reads behind the tests of a check-in find no transaction open; and
    when the store rejects the read that follows COMMIT, the request is
    answered 500 with the row inserted and both updates made. *)
Lemma createCheckIn_checks_before_begin :
  let o := run_under (refusing 8) 0 ann_asks (idle venue) in
  ~ within_one_transaction (trace ann_asks (idle venue)) /\
  take 4 (log (run_under willing 0 ann_asks (idle venue)))
    = map (fun k => mkSent k false) [Reading; Reading; Reading; Beginning] /\
  answer o = json 500 (Error "Failed to create check-in") /\
  store o = idle venue_full /\
  venue_full = checked_in true (at_desk "c1") "a1" "e1" None venue.
Proof.
  cbn zeta. split; [|vm_compute; repeat split; reflexivity].
  unfold within_one_transaction. rewrite List.Forall_forall. intros H.
  specialize (H (mkEntry true false false)).
  assert (Hin : In (mkEntry true false false) (trace ann_asks (idle venue)))
    by (vm_compute; left; reflexivity).
  specialize (H Hin (or_introl eq_refl)). discriminate.
Qed.

Lemma createCheckIn_atomicity_witness :
  let call := createCheckIn sample_parse (at_desk "c1") (ask "a1" "e1") in
  let o := run_under (refusing 5) 0 call (idle venue) in
  status (run call (idle venue)).1 = 201 /\
  log (run_under willing 0 call (idle venue))
  = map (fun k => mkSent k false)
      [Reading; Reading; Reading; Beginning; Writing; Writing; Writing;
       Committing; Reading] /\
  one_transaction (log o) = true /\
  answer o = json 500 (Error "Failed to create check-in") /\
  store o = idle venue /\
  run (createCheckIn sample_parse (at_desk "c1") (ask "a2" "e2")) (idle venue_full)
  = (json 500 (Error "Failed to create check-in"), idle venue_full).
Proof.
  cbn zeta.
  destruct (createCheckIn_atomicity sample_parse (at_desk "c1") (ask "a1" "e1") venue)
    as (Hone & _ & Hlog & _ & _ & _).
  destruct (createCheckIn_atomicity sample_parse (at_desk "c1") (ask "a2" "e2") venue_full)
    as (_ & _ & _ & _ & _ & Hclash).
  assert (Hst : status (run (createCheckIn sample_parse (at_desk "c1") (ask "a1" "e1"))
                          (idle venue)).1 = 201) by (vm_compute; reflexivity).
  split; [exact Hst|]. split; [exact (Hlog Hst)|]. split; [apply Hone|].
  split; [vm_compute; reflexivity|]. split; [vm_compute; reflexivity|].
  apply (Hclash "a2" "e2" bob clinic).
  - vm_compute. repeat split; reflexivity.
  - reflexivity.
  - vm_compute. reflexivity.
  - vm_compute. reflexivity.
  - cbn. lia.
  - vm_compute. reflexivity.
Defined.

(** ** Reversal *)

Lemma reverseCheckIn_under refuses clock id t c :
  List.find (has_id id) (checkins t) = Some c ->
  let o := run_under refuses 0 (reverseCheckIn clock id) (idle t) in
  one_transaction (log o) = true /\
  ((answer o = json 200 (Message "Check-in deleted successfully") /\
    store o = idle (reversed clock id c t))
   \/ (answer o = json 500 (Error "Failed to delete check-in") /\ store o = idle t)
   \/ (answer o = json 500 (Error "Failed to delete check-in") /\
       txn (store o) = Some t /\
       exists k, (2 <= k <= 4)%nat /\ refuses k = true /\ refuses (S k) = true)).
Proof.
  intros Hf. cbn zeta.
  as_ending (run_under refuses 0 (reverseCheckIn clock id) (idle t)).
  change (ends_as ending refuses Outside 0 (reverseCheckIn clock id) (idle t)).
  assert (Hnone : ending (json 500 (Error "Failed to delete check-in")) (idle t))
    by (right; left; split; reflexivity).
  assert (Hopen : forall cur' k, (2 <= k <= 4)%nat -> refuses k = true ->
            refuses (S k) = true ->
            ending (json 500 (Error "Failed to delete check-in")) (mkDB cur' (Some t))).
  { intros cur' k Hk H1 H2. right; right.
    split; [reflexivity|]. split; [reflexivity|]. exists k. auto. }
  unfold reverseCheckIn, await, reply.
  send (refuses 0%nat) R0; [stop; exact Hnone|]. rewrite Hf.
  send (refuses 1%nat) R1; [stop; exact Hnone|].
  send (refuses 2%nat) R2.
  { send (refuses 3%nat) R3; stop; [apply (Hopen _ 2%nat); auto; lia | exact Hnone]. }
  cbn [athletes events checkins].
  send (refuses 3%nat) R3.
  { send (refuses 4%nat) R4; stop; [apply (Hopen _ 3%nat); auto; lia | exact Hnone]. }
  cbn [athletes events checkins].
  send (refuses 4%nat) R4.
  { send (refuses 5%nat) R5; stop; [apply (Hopen _ 4%nat); auto; lia | exact Hnone]. }
  stop. left. split; reflexivity.
Qed.

(** C5, as the handler has it.  For an existing check-in, reverseCheckIn
    answers success, deletes the row and lowers the counter of the owning
    event by exactly one, and touches no other event.  The two writes are
    the only ones of the call and lie between one BEGIN and its COMMIT: the
    call sends one read, BEGIN, the two writes and COMMIT, in this order.
    Whatever statements the store rejects, the call keeps to that one
    transaction, and it ends with both writes committed and the success, or
    with the answer 500 and the tables as before, or, when the store rejects
    the ROLLBACK too, with the answer 500 and the transaction left open; a
    store that rejects nothing on its own account is the store of a call
    that runs alone.  The subtraction is unconditional: the counter stays at
    or above zero exactly when it was at least one before the call, which is
    the case whenever the counters agree with the rows on file. *)
Theorem reverseCheckIn_effect clock id t c :
  List.find (has_id id) (checkins t) = Some c ->
  let out := run (reverseCheckIn clock id) (idle t) in
  out.1 = json 200 (Message "Check-in deleted successfully") /\
  out.2 = idle (reversed clock id c t) /\
  existsb (has_id id) (checkins (cur out.2)) = false /\
  log (run_under willing 0 (reverseCheckIn clock id) (idle t))
    = map (fun k => mkSent k false) [Reading; Beginning; Writing; Writing; Committing] /\
  (answer (run_under willing 0 (reverseCheckIn clock id) (idle t)) = out.1 /\
   store (run_under willing 0 (reverseCheckIn clock id) (idle t)) = out.2) /\
  (forall refuses,
     let o := run_under refuses 0 (reverseCheckIn clock id) (idle t) in
     one_transaction (log o) = true /\
     ((answer o = json 200 (Message "Check-in deleted successfully") /\
       store o = idle (reversed clock id c t))
      \/ (answer o = json 500 (Error "Failed to delete check-in") /\ store o = idle t)
      \/ (answer o = json 500 (Error "Failed to delete check-in") /\
          txn (store o) = Some t /\
          exists k, (2 <= k <= 4)%nat /\ refuses k = true /\ refuses (S k) = true))) /\
  (forall e, events t !! eventId c = Some e ->
     exists e', events (cur out.2) !! eventId c = Some e' /\
       currentCapacity e' = currentCapacity e - 1 /\
       maxCapacity e' = maxCapacity e /\
       (0 <= currentCapacity e' <-> 1 <= currentCapacity e) /\
       (capacity_consistent t -> 0 <= currentCapacity e')) /\
  (forall other, other <> eventId c ->
     events (cur out.2) !! other = events t !! other).
Proof.
  intros Hf out. subst out.
  pose proof (run_under_willing (reverseCheckIn clock id) 0 (idle t)) as Hrun.
  rewrite run_reverseCheckIn, Hf in *. cbn [fst snd idle cur] in *.
  split; [reflexivity|]. split; [reflexivity|].
  split; [|split; [|split; [|split; [|split]]]].
  - cbn [reversed checkins]. apply not_true_is_false. intros H.
    apply existsb_exists in H as (x & Hin & Hx).
    apply filter_In in Hin as [_ Hn]. rewrite Hx in Hn. discriminate.
  - unfold reverseCheckIn, await, reply. logged. rewrite Hf.
    logged. logged. logged. logged. reflexivity.
  - exact Hrun.
  - intros refuses. apply (reverseCheckIn_under refuses clock id t c Hf).
  - intros e He. exists (bump (-1) clock e).
    cbn [reversed events]. rewrite lookup_alter_eq, He.
    cbn [bump currentCapacity maxCapacity].
    split; [reflexivity|]. split; [lia|]. split; [reflexivity|]. split; [lia|].
    intros Hcons. rewrite (Hcons _ _ He). unfold count_for.
    apply find_some in Hf as [Hin _].
    assert (1 <= length (List.filter (for_event (eventId c)) (checkins t)))%nat.
    { apply (filter_hit _ c); [exact Hin | apply String.eqb_refl]. }
    lia.
  - intros other Hne. cbn [reversed events]. apply lookup_alter_ne. congruence.
Qed.

(** The counter goes below zero and the call answers success: on tables
    whose counter is already 0, and on consistent tables when two requests
    for the same check-in overlap. *)
Lemma reverseCheckIn_below_zero :
  let clock := "2025-03-02T11:00:00.000Z" in
  let lone := run (reverseCheckIn clock "c1") (idle venue_skewed) in
  let both := interleave twice_reversed
                [reverseCheckIn clock "c1"; reverseCheckIn clock "c1"] (idle venue_full) in
  (currentCapacity <$> events venue_skewed !! "e1") = Some 0 /\
  status lone.1 = 200 /\
  (currentCapacity <$> events (cur lone.2) !! "e1") = Some (-1) /\
  (currentCapacity <$> events venue_full !! "e1") = Some 1 /\
  count_for "e1" venue_full = 1 /\
  map (fun p => status <$> response_of p) both.1 = [Some 200; Some 200] /\
  (currentCapacity <$> events (cur both.2) !! "e1") = Some (-1).
Proof. vm_compute. repeat split; reflexivity. Qed.

Lemma reverseCheckIn_effect_witness :
  let c := new_row true (at_desk "c1") "a1" "e1" None in
  let call := reverseCheckIn "2025-03-02T11:00:00.000Z" "c1" in
  let out := run call (idle venue_full) in
  let o := run_under (refusing 3) 0 call (idle venue_full) in
  List.find (has_id "c1") (checkins venue_full) = Some c /\
  out.1 = json 200 (Message "Check-in deleted successfully") /\
  existsb (has_id "c1") (checkins (cur out.2)) = false /\
  (currentCapacity <$> events (cur out.2) !! "e1") = Some 0 /\
  log (run_under willing 0 call (idle venue_full))
    = map (fun k => mkSent k false) [Reading; Beginning; Writing; Writing; Committing] /\
  one_transaction (log o) = true /\
  answer o = json 500 (Error "Failed to delete check-in") /\
  store o = idle venue_full.
Proof.
  assert (H : List.find (has_id "c1") (checkins venue_full)
              = Some (new_row true (at_desk "c1") "a1" "e1" None))
    by (vm_compute; reflexivity).
  pose proof (reverseCheckIn_effect "2025-03-02T11:00:00.000Z" "c1" venue_full _ H)
    as (H1 & _ & H3 & H4 & _ & H5 & _).
  cbn zeta. split; [exact H|]. split; [exact H1|]. split; [exact H3|].
  split; [vm_compute; reflexivity|]. split; [exact H4|].
  split; [apply (H5 (refusing 3))|].
  split; vm_compute; reflexivity.
Defined.

(** * Capacity *)

(** C1, as the handler has it.  Calls to createCheckIn that follow one
    another, against an event whose counter starts between 0 and
    maxCapacity = N: however many calls there are, the counter ends at most
    at N, it has grown by one per accepted call, and at most N calls are
    accepted.  A call that finds the counter at or above maxCapacity fails
    and leaves the tables as they were; when the earlier tests pass, its
    answer is the 400 "Event is at full capacity".  A call that passes the
    earlier tests and finds the counter below maxCapacity is accepted, when
    its id is free, and raises the counter by one.  Check-in, reversal, notes
    update, event deletion, event toggle and athlete deletion, run one after
    the other, leave no counter above its capacity when none was.  An event
    update stores the capacity it is sent, whatever the counter, and leaves
    the counter alone. *)
Theorem createCheckIn_capacity Date_parse ev e t calls :
  events t !! ev = Some e ->
  0 <= currentCapacity e <= maxCapacity e ->
  let out := run_all (requests Date_parse calls) (idle t) in
  (exists e', events (cur out.2) !! ev = Some e' /\ txn out.2 = None /\
     maxCapacity e' = maxCapacity e /\
     currentCapacity e' = currentCapacity e + Z.of_nat (accepted ev calls out.1) /\
     currentCapacity e' <= maxCapacity e') /\
  Z.of_nat (accepted ev calls out.1) <= maxCapacity e /\
  (forall w b t1 e1,
     events t1 !! ev = Some e1 -> b_eventId b = Some ev ->
     currentCapacity e1 >= maxCapacity e1 ->
     let one := run (createCheckIn Date_parse w b) (idle t1) in
     succeeded one.1 = false /\ one.2 = idle t1 /\
     (forall aid a, reaches_event b t1 aid ev a e1 -> isActive e1 = true ->
        str_lt (date e1) (before_T (clock_today w)) = false ->
        existsb (for_pair aid ev) (checkins t1) = false ->
        one.1 = json 400 (Error "Event is at full capacity") /\
        error_kind one.1 = Some Conflict)) /\
  (forall w b t1 aid a e1,
     reaches_event b t1 aid ev a e1 -> isActive e1 = true ->
     str_lt (date e1) (before_T (clock_today w)) = false ->
     existsb (for_pair aid ev) (checkins t1) = false ->
     existsb (has_id (uuid w)) (checkins t1) = false ->
     currentCapacity e1 < maxCapacity e1 ->
     let one := run (createCheckIn Date_parse w b) (idle t1) in
     status one.1 = 201 /\
     exists e2, events (cur one.2) !! ev = Some e2 /\
       currentCapacity e2 = currentCapacity e1 + 1 /\
       maxCapacity e2 = maxCapacity e1) /\
  (forall ops t1, within_capacity t1 -> within_capacity (after Date_parse ops t1)) /\
  (forall clock id b t1 e1,
     events t1 !! id = Some e1 ->
     let put := updateEvent clock id b t1 in
     status put.1 = 200 /\
     exists e2, events put.2 !! id = Some e2 /\
       currentCapacity e2 = currentCapacity e1 /\
       maxCapacity e2 = coalesce (eb_maxCapacity b) (maxCapacity e1)).
Proof.
  intros He [H0 Hle] out.
  destruct (capacity_run Date_parse ev calls t e He Hle) as (t' & e' & H1 & H2 & H3 & H4 & H5).
  fold out in H1, H4. split; [|split; [|split; [|split; [|split]]]].
  - exists e'. rewrite H1. cbn [idle cur txn]. repeat split; assumption.
  - lia.
  - intros w b t1 e1 He1 Hb Hfull one.
    assert (Hno : succeeded one.1 = false /\ one.2 = idle t1).
    { subst one.
      destruct (createCheckIn_cases Date_parse w b t1)
        as [(aid & eid & a & e0 & Hr & _ & _ & _ & Hc & _) | Hno]; [|exact Hno].
      destruct Hr as (_ & Hb2 & _ & _ & _ & Het).
      assert (eid = ev) by congruence. subst eid.
      assert (e0 = e1) by congruence. subst e0. lia. }
    destruct Hno as [Hno Hdb]. split; [exact Hno | split; [exact Hdb|]].
    intros aid a Hr Hact Hp Hd. subst one.
    rewrite (create_full Date_parse w b t1 aid ev a e1 Hr Hact Hp);
      [split; reflexivity | | exact Hfull].
    apply find_none_existsb. exact Hd.
  - intros w b t1 aid a e1 Hr Hact Hp Hd Hk Hc one. subst one.
    apply find_none_existsb in Hd.
    rewrite (create_ok Date_parse w b t1 aid ev a e1 Hr Hact Hp Hd Hc Hk).
    cbn [fst snd status idle cur checked_in events]. split; [reflexivity|].
    exists (bump 1 (clock_checkin w) e1).
    destruct Hr as (_ & _ & _ & _ & _ & Het).
    rewrite lookup_alter_eq, Het. repeat split.
  - intros ops t1 Hw.
    apply (after_keeps Date_parse within_capacity effect_keeps_capacity ops t1 Hw).
  - intros clock id b t1 e1 He1 put. subst put. unfold updateEvent. rewrite He1.
    cbn [fst snd status events]. split; [reflexivity|].
    exists (revise b clock e1). rewrite lookup_alter_eq, He1. repeat split.
Qed.

(** The counter passes the capacity, and not every call on a full event is
    answered with the capacity failure.  Two requests for the one place of
    the open gym that overlap are both accepted and leave the counter at 2
    with maxCapacity 1.  An update of the clinic, where two athletes are
    checked in, to a capacity of 1 is accepted and leaves the counter at 2
    with maxCapacity 1.  A request for a full event that names an athlete who
    is not on file is answered 404. *)
Lemma capacity_exceeded :
  let raced := interleave overlapping [ann_asks; bob_asks] (idle venue) in
  let put := updateEvent "2025-03-02T12:00:00.000Z" "e2" one_place_only clinic_day in
  let stranger := run (createCheckIn sample_parse (at_desk "c3") (ask "a7" "e1"))
                      (idle venue_full) in
  within_capacity venue /\
  map (fun p => status <$> response_of p) raced.1 = [Some 201; Some 201] /\
  ~ within_capacity (cur raced.2) /\
  (currentCapacity <$> events (cur raced.2) !! "e1") = Some 2 /\
  (maxCapacity <$> events (cur raced.2) !! "e1") = Some 1 /\
  within_capacity clinic_day /\
  status put.1 = 200 /\
  ~ within_capacity put.2 /\
  (currentCapacity <$> events put.2 !! "e2") = Some 2 /\
  (maxCapacity <$> events put.2 !! "e2") = Some 1 /\
  (currentCapacity <$> events venue_full !! "e1") = Some 1 /\
  (maxCapacity <$> events venue_full !! "e1") = Some 1 /\
  stranger.1 = json 404 (Error "Athlete not found") /\
  error_kind stranger.1 = Some NotFound.
Proof.
  cbn zeta.
  assert (Hv : within_capacity venue) by apply venue_sound.
  assert (Hc : within_capacity clinic_day).
  { change clinic_day with
      (after sample_parse [CreateCheckIn (at_desk "c1") (ask "a1" "e2");
                           CreateCheckIn (at_desk "c2") (ask "a2" "e2")] venue).
    apply (after_keeps sample_parse within_capacity effect_keeps_capacity), Hv. }
  split; [exact Hv|]. split; [vm_compute; reflexivity|]. split.
  { intros H.
    specialize (H "e1" (mkEvent "e1" "Open gym" "2025-03-02" 1 2 true
                          "2025-03-02T10:00:01.000Z")).
    cbn [currentCapacity maxCapacity] in H.
    assert (2 <= 1) by (apply H; vm_compute; reflexivity). lia. }
  split; [vm_compute; reflexivity|]. split; [vm_compute; reflexivity|].
  split; [exact Hc|]. split; [vm_compute; reflexivity|]. split.
  { intros H.
    specialize (H "e2" (mkEvent "e2" "Serving clinic" "2025-03-03" 1 2 true
                          "2025-03-02T12:00:00.000Z")).
    cbn [currentCapacity maxCapacity] in H.
    assert (2 <= 1) by (apply H; vm_compute; reflexivity). lia. }
  vm_compute. repeat split; reflexivity.
Qed.

Lemma createCheckIn_capacity_witness :
  let out := run_all (requests sample_parse two_calls) (idle venue) in
  let first := run (createCheckIn sample_parse (at_desk "c1") (ask "a1" "e1")) (idle venue) in
  let late := run (createCheckIn sample_parse (at_desk "c2") (ask "a2" "e1")) (idle venue_full) in
  events venue !! "e1" = Some open_gym /\
  0 <= currentCapacity open_gym <= maxCapacity open_gym /\
  Z.of_nat (accepted "e1" two_calls out.1) <= 1 /\
  (exists e', events (cur out.2) !! "e1" = Some e' /\ currentCapacity e' <= maxCapacity e') /\
  status first.1 = 201 /\
  (exists e2, events (cur first.2) !! "e1" = Some e2 /\ currentCapacity e2 = 1) /\
  late.1 = json 400 (Error "Event is at full capacity") /\ late.2 = idle venue_full.
Proof.
  assert (H1 : events venue !! "e1" = Some open_gym) by (vm_compute; reflexivity).
  assert (H2 : 0 <= currentCapacity open_gym <= maxCapacity open_gym) by (cbn; lia).
  pose proof (createCheckIn_capacity sample_parse "e1" open_gym venue two_calls H1 H2)
    as ((e' & He & _ & _ & _ & Hle) & Hn & Hfull & Hfree & _).
  split; [exact H1|]. split; [exact H2|]. split; [exact Hn|].
  split; [exists e'; split; assumption|].
  destruct (Hfree (at_desk "c1") (ask "a1" "e1") venue "a1" ann open_gym)
    as (Hst & e2 & He2 & Hcur & _).
  { vm_compute. repeat split; reflexivity. }
  { reflexivity. }
  { vm_compute. reflexivity. }
  { vm_compute. reflexivity. }
  { vm_compute. reflexivity. }
  { cbn. lia. }
  split; [exact Hst|]. split; [exists e2; split; [exact He2 | exact Hcur]|].
  destruct (Hfull (at_desk "c2") (ask "a2" "e1") venue_full
              (bump 1 (clock_checkin (at_desk "c1")) open_gym))
    as (_ & Hdb & Hmsg).
  - vm_compute. reflexivity.
  - reflexivity.
  - cbn. lia.
  - split; [|exact Hdb].
    apply (Hmsg "a2" bob).
    + vm_compute. repeat split; reflexivity.
    + reflexivity.
    + vm_compute. reflexivity.
    + vm_compute. reflexivity.
Defined.

(** * One check-in per athlete and event *)

(** C6, evaluated.  Ann asks twice for a place in the clinic, which has
    twelve.  When the first request runs to its end before the second
    starts, the first is accepted and the second is answered 400 "Athlete
    already checked in for this event".  When both requests have made their
    three reads before either writes, both are accepted: two check-in rows
    are on file for the one pair of athlete and event, and the counter of
    the clinic stands at 2. *)
Theorem same_pair_race :
  let serial := interleave one_after_the_other [ann_first; ann_again] (idle venue) in
  let raced := interleave both_past_the_reads [ann_first; ann_again] (idle venue) in
  unique_pairs venue /\
  map response_of serial.1
    = [Some (json 201 (CheckinCreated
                         (Some (mkView (new_row true (at_desk "c1") "a1" "e2" None)
                                  "Ann" "Lee" None "Serving clinic"))
                         true "Check-in successful - waiver validated"));
       Some (json 400 (Error "Athlete already checked in for this event"))] /\
  length (List.filter (for_pair "a1" "e2") (checkins (cur serial.2))) = 1%nat /\
  map (fun p => status <$> response_of p) raced.1 = [Some 201; Some 201] /\
  checkins (cur raced.2)
    = [new_row true (at_desk "c1") "a1" "e2" None;
       new_row true (at_desk "c2") "a1" "e2" None] /\
  length (List.filter (for_pair "a1" "e2") (checkins (cur raced.2))) = 2%nat /\
  ~ unique_pairs (cur raced.2) /\
  (currentCapacity <$> events (cur raced.2) !! "e2") = Some 2 /\
  txn raced.2 = None.
Proof.
  cbn zeta. split; [intros a ev; cbn; lia|].
  split; [vm_compute; reflexivity|]. split; [vm_compute; reflexivity|].
  split; [vm_compute; reflexivity|]. split; [vm_compute; reflexivity|].
  split; [vm_compute; reflexivity|]. split; [|vm_compute; split; reflexivity].
  intros H. specialize (H "a1" "e2").
  assert (Hlen : length (List.filter (for_pair "a1" "e2")
                           (checkins (cur (interleave both_past_the_reads
                                             [ann_first; ann_again] (idle venue)).2)))
                 = 2%nat) by (vm_compute; reflexivity).
  rewrite Hlen in H. lia.
Qed.

(** * Deleting an event *)

(** C9, evaluated.  The clinic has no check-in.  A request to delete it and
    Ann's request to check into it are resumed in turn: the count of
    check-ins is taken before Ann's row is inserted, the event is deleted
    after Ann's request has read it.  Both are answered with success; the
    clinic is gone and Ann's check-in row names it.  Run one after the other
    in either order, the second of the two requests is refused. *)
Theorem delete_event_race :
  let pool := [deleteEvent "e2"; ann_first] in
  let raced := interleave in_turn pool (idle venue) in
  let delete_first := run_all pool (idle venue) in
  let checkin_first := run_all [ann_first; deleteEvent "e2"] (idle venue) in
  no_orphans venue /\ count_for "e2" venue = 0 /\
  map response_of raced.1
    = [Some (json 200 (Message "Event deleted successfully"));
       Some (json 201 (CheckinCreated None true "Check-in successful - waiver validated"))] /\
  events (cur raced.2) !! "e2" = None /\
  checkins (cur raced.2) = [new_row true (at_desk "c1") "a1" "e2" None] /\
  ~ no_orphans (cur raced.2) /\
  txn raced.2 = None /\
  map status delete_first.1 = [200; 404] /\
  no_orphans (cur delete_first.2) /\
  map status checkin_first.1 = [201; 400] /\
  no_orphans (cur checkin_first.2).
Proof.
  cbn zeta. split; [intros c []|]. split; [reflexivity|].
  split; [vm_compute; reflexivity|]. split; [vm_compute; reflexivity|].
  split; [vm_compute; reflexivity|]. split.
  { intros H. specialize (H (new_row true (at_desk "c1") "a1" "e2" None)).
    destruct H as [x Hx]; [vm_compute; left; reflexivity|].
    vm_compute in Hx. discriminate. }
  split; [vm_compute; reflexivity|]. split; [vm_compute; reflexivity|].
  split; [intros c []|]. split; [vm_compute; reflexivity|].
  intros c Hin.
  assert (Hc : c = new_row true (at_desk "c1") "a1" "e2" None).
  { vm_compute in Hin. destruct Hin as [<- | []]. reflexivity. }
  subst c. vm_compute. eexists. reflexivity.
Qed.

(** * The share of the capacity in use *)








(** * Calls that run one after the other *)

(** X23.  For operations that run to their end one after the other (check-in,
    reversal, notes update, event deletion, event toggle, athlete deletion):
    at most one check-in row exists for each pair of athlete and event
    afterwards, when that held before.  A request for a pair that already
    has a row never succeeds and writes nothing; when athlete and event still
    pass the earlier tests its answer is the 400 "Athlete already checked in
    for this event".  A request that passes all tests, for a pair without a
    row, is answered 201 and puts the one row of the pair on file; the same
    request sent again on the same day is then answered with that 400 and
    writes nothing. *)
Theorem checkin_uniqueness Date_parse :
  (forall ops t, unique_pairs t ->
     let out := run_all (map (handler Date_parse) ops) (idle t) in
     unique_pairs (cur out.2) /\ txn out.2 = None) /\
  (forall w b t aid eid,
     b_athleteId b = Some aid -> b_eventId b = Some eid ->
     existsb (for_pair aid eid) (checkins t) = true ->
     let one := run (createCheckIn Date_parse w b) (idle t) in
     succeeded one.1 = false /\ one.2 = idle t /\
     (forall a e, reaches_event b t aid eid a e -> isActive e = true ->
        str_lt (date e) (before_T (clock_today w)) = false ->
        one.1 = json 400 (Error "Athlete already checked in for this event") /\
        error_kind one.1 = Some Conflict)) /\
  (forall w1 w2 b1 b2 t,
     b_athleteId b2 = b_athleteId b1 -> b_eventId b2 = b_eventId b1 ->
     before_T (clock_today w2) = before_T (clock_today w1) ->
     let first := run (createCheckIn Date_parse w1 b1) (idle t) in
     let second := run (createCheckIn Date_parse w2 b2) first.2 in
     succeeded first.1 = true ->
     second.1 = json 400 (Error "Athlete already checked in for this event") /\
     second.2 = first.2) /\
  (forall w1 w2 b t aid eid a e,
     reaches_event b t aid eid a e -> isActive e = true ->
     str_lt (date e) (before_T (clock_today w1)) = false ->
     before_T (clock_today w2) = before_T (clock_today w1) ->
     existsb (for_pair aid eid) (checkins t) = false ->
     currentCapacity e < maxCapacity e ->
     existsb (has_id (uuid w1)) (checkins t) = false ->
     let first := run (createCheckIn Date_parse w1 b) (idle t) in
     let second := run (createCheckIn Date_parse w2 b) first.2 in
     status first.1 = 201 /\
     List.filter (for_pair aid eid) (checkins (cur first.2))
     = [new_row (waiver_check Date_parse a (clock_now w1)) w1 aid eid (b_notes b)] /\
     second.1 = json 400 (Error "Athlete already checked in for this event") /\
     second.2 = first.2).
Proof.
  assert (Hagain : forall w1 w2 b1 b2 t,
     b_athleteId b2 = b_athleteId b1 -> b_eventId b2 = b_eventId b1 ->
     before_T (clock_today w2) = before_T (clock_today w1) ->
     let first := run (createCheckIn Date_parse w1 b1) (idle t) in
     let second := run (createCheckIn Date_parse w2 b2) first.2 in
     succeeded first.1 = true ->
     second.1 = json 400 (Error "Athlete already checked in for this event") /\
     second.2 = first.2).
  { intros w1 w2 b1 b2 t Ha He Hday first second Hok. subst second first.
    destruct (createCheckIn_cases Date_parse w1 b1 t)
      as [(aid & eid & a & e & Hr & Hact & Hp & Hf & Hc & Hk & Hst & Hdb) | [Hno _]];
      [|cbn zeta in *; congruence].
    cbn zeta in Hdb. rewrite Hdb.
    destruct Hr as (Hb1 & Hb2 & Hn1 & Hn2 & Hat & Het).
    set (t1 := checked_in _ w1 aid eid (b_notes b1) t).
    assert (Hr2 : reaches_event b2 t1 aid eid
                    (visit (before_T (clock_checkin w1)) (clock_checkin w1) a)
                    (bump 1 (clock_checkin w1) e)).
    { repeat split; try congruence.
      - unfold t1. cbn [checked_in athletes]. rewrite lookup_alter_eq, Hat. reflexivity.
      - unfold t1. cbn [checked_in events]. rewrite lookup_alter_eq, Het. reflexivity. }
    rewrite (create_duplicate Date_parse w2 b2 t1 aid eid _ _ Hr2).
    + split; reflexivity.
    + exact Hact.
    + cbn [bump date]. rewrite Hday. exact Hp.
    + unfold t1. cbn [checked_in checkins]. rewrite existsb_app. cbn [existsb].
      unfold for_pair at 2, new_row. cbn [athleteId eventId].
      rewrite !String.eqb_refl. cbn. apply orb_true_r. }
  split; [|split; [|split]].
  - intros ops t Hu out. subst out.
    destruct (unique_run Date_parse ops t Hu) as (t' & -> & Hu').
    split; [exact Hu' | reflexivity].
  - intros w b t aid eid Hb1 Hb2 Hd one.
    assert (Hno : succeeded one.1 = false /\ one.2 = idle t).
    { subst one.
      destruct (createCheckIn_cases Date_parse w b t)
        as [(aid' & eid' & a & e & Hr & _ & _ & Hf & _) | Hno]; [|exact Hno].
      destruct Hr as (Hb1' & Hb2' & _).
      assert (aid' = aid) by congruence. assert (eid' = eid) by congruence. subst aid' eid'.
      apply find_existsb in Hd as [c Hc]. congruence. }
    destruct Hno as [Hno Hdb]. split; [exact Hno | split; [exact Hdb|]].
    intros a e Hr Hact Hp. subst one.
    rewrite (create_duplicate Date_parse w b t aid eid a e Hr Hact Hp Hd).
    split; reflexivity.
  - exact Hagain.
  - intros w1 w2 b t aid eid a e Hr Hact Hp Hday Hd Hc Hk first second.
    pose proof (Hagain w1 w2 b b t eq_refl eq_refl Hday) as H2. cbn zeta in H2.
    fold first in H2. fold second in H2.
    apply find_none_existsb in Hd.
    assert (H1 : first = (json 201 (CheckinCreated
                 (head (omap (join_row (checked_in (waiver_check Date_parse a (clock_now w1))
                                          w1 aid eid (b_notes b) t))
                          (List.filter (has_id (uuid w1))
                             (checkins (checked_in (waiver_check Date_parse a (clock_now w1))
                                          w1 aid eid (b_notes b) t)))))
                 (waiver_check Date_parse a (clock_now w1))
                 (if waiver_check Date_parse a (clock_now w1)
                  then "Check-in successful - waiver validated"
                  else "Check-in successful - WAIVER VALIDATION REQUIRED")),
               idle (checked_in (waiver_check Date_parse a (clock_now w1))
                       w1 aid eid (b_notes b) t)))
      by (apply (create_ok Date_parse w1 b t aid eid a e); assumption).
    assert (Hst : status first.1 = 201) by (rewrite H1; reflexivity).
    split; [exact Hst|]. split.
    + rewrite H1. cbn [snd idle cur checked_in checkins].
      rewrite List.filter_app, (find_filter_nil _ _ Hd). cbn [List.filter app].
      unfold for_pair at 1, new_row at 1. cbn [athleteId eventId].
      rewrite !String.eqb_refl. reflexivity.
    + apply H2. unfold succeeded. rewrite Hst. reflexivity.
Qed.

Lemma checkin_uniqueness_witness :
  let first := run (createCheckIn sample_parse (at_desk "c1") (ask "a1" "e1")) (idle venue) in
  let second := run (createCheckIn sample_parse (at_desk "c9") (ask "a1" "e1")) first.2 in
  unique_pairs
    (cur (run_all (map (handler sample_parse)
                     [CreateCheckIn (at_desk "c1") (ask "a1" "e1");
                      UpdateNotes "c1" (Some "late");
                      CreateCheckIn (at_desk "c9") (ask "a1" "e1")])
            (idle venue)).2) /\
  status first.1 = 201 /\
  List.filter (for_pair "a1" "e1") (checkins (cur first.2))
  = [new_row true (at_desk "c1") "a1" "e1" None] /\
  second.1 = json 400 (Error "Athlete already checked in for this event") /\
  second.2 = first.2.
Proof.
  destruct (checkin_uniqueness sample_parse) as (Hinv & _ & _ & Hlive).
  split.
  - apply Hinv. intros a ev. cbn. lia.
  - apply (Hlive (at_desk "c1") (at_desk "c9") (ask "a1" "e1") venue "a1" "e1" ann open_gym).
    + vm_compute. repeat split; reflexivity.
    + reflexivity.
    + vm_compute. reflexivity.
    + reflexivity.
    + vm_compute. reflexivity.
    + cbn. lia.
    + vm_compute. reflexivity.
Defined.

(** X24.  A request to delete an event that runs to its end with no other
    request in between: when at least one check-in row names the event it
    fails and deletes nothing, with the 400 "Cannot delete event with existing
    check-ins. Deactivate it instead." when the event is on file; when the
    event is on file and no row names it, it is answered 200 and removes that
    event alone; an event that is not on file is answered 404.  Hence such a
    request leaves no check-in without its event and keeps every counter
    equal to the number of rows of its event, when that held before. *)
Theorem deleteEvent_guard id t :
  let out := run (deleteEvent id) (idle t) in
  (count_for id t > 0 ->
     succeeded out.1 = false /\ out.2 = idle t /\
     (is_Some (events t !! id) ->
        out.1 = json 400 (Error "Cannot delete event with existing check-ins. Deactivate it instead."))) /\
  (succeeded out.1 = true ->
     count_for id t = 0 /\ is_Some (events t !! id) /\
     out.2 = idle (mkTables (athletes t) (delete id (events t)) (checkins t))) /\
  checkins (cur out.2) = checkins t /\
  (no_orphans t -> no_orphans (cur out.2)) /\
  (capacity_consistent t -> capacity_consistent (cur out.2)) /\
  (is_Some (events t !! id) -> count_for id t = 0 ->
     out = (json 200 (Message "Event deleted successfully"),
            idle (mkTables (athletes t) (delete id (events t)) (checkins t))) /\
     events (cur out.2) !! id = None /\
     (forall other, other <> id -> events (cur out.2) !! other = events t !! other)) /\
  (events t !! id = None -> out = (json 404 (Error "Event not found"), idle t)).
Proof.
  cbn zeta. rewrite run_deleteEvent.
  destruct (events t !! id) as [e|] eqn:He.
  - destruct (count_for id t >? 0) eqn:Hc; cbn [fst snd idle cur checkins events].
    + split; [intros _; split; [reflexivity | split; reflexivity]|].
      split; [discriminate|]. split; [reflexivity|]. split; [trivial|].
      split; [trivial|]. split; [|discriminate].
      intros _ Hz. rewrite Hz in Hc. discriminate.
    + assert (Hz : count_for id t = 0) by (unfold count_for in *; lia).
      split; [lia|]. split; [intros _; repeat split; [exact Hz | eauto]|].
      split; [reflexivity|]. split; [|split; [|split; [|discriminate]]].
      * intros Ho c Hin. destruct (decide (eventId c = id)) as [Heq|Hne].
        -- exfalso. unfold count_for in Hz.
           assert (1 <= length (List.filter (for_event id) (checkins t)))%nat.
           { apply (filter_hit _ c); [exact Hin|]. unfold for_event.
             rewrite Heq. apply String.eqb_refl. }
           lia.
        -- cbn [events]. rewrite lookup_delete_ne by congruence. apply Ho, Hin.
      * intros Hcons i e' Hi. unfold count_for. cbn [checkins events] in *.
        apply lookup_delete_Some in Hi as [_ Hi]. apply (Hcons _ _ Hi).
      * intros _ _. split; [reflexivity|]. split; [apply lookup_delete_eq|].
        intros other Hne. apply lookup_delete_ne. congruence.
  - cbn [fst snd idle cur checkins].
    split; [intros _; split; [reflexivity | split; [reflexivity|]]|].
    { intros [x Hx]. discriminate. }
    split; [discriminate|]. split; [reflexivity|]. split; [trivial|].
    split; [trivial|]. split; [|reflexivity].
    intros [x Hx]. discriminate.
Qed.

Lemma deleteEvent_guard_witness :
  let out := run (deleteEvent "e1") (idle venue_full) in
  let gone := run (deleteEvent "e2") (idle venue_full) in
  count_for "e1" venue_full > 0 /\
  succeeded out.1 = false /\ out.2 = idle venue_full /\
  gone.1 = json 200 (Message "Event deleted successfully") /\
  events (cur gone.2) !! "e2" = None /\
  events (cur gone.2) !! "e1" = events venue_full !! "e1".
Proof.
  assert (H : count_for "e1" venue_full > 0) by (vm_compute; reflexivity).
  pose proof (proj1 (deleteEvent_guard "e1" venue_full) H) as (H1 & H2 & _).
  destruct (deleteEvent_guard "e2" venue_full) as (_ & _ & _ & _ & _ & Hgo & _).
  destruct Hgo as (H3 & H4 & H5);
    [vm_compute; eexists; reflexivity | vm_compute; reflexivity |].
  cbn zeta. split; [exact H|]. split; [exact H1|]. split; [exact H2|].
  split; [rewrite H3; reflexivity|]. split; [exact H4|]. apply H5. discriminate.
Defined.
